(** * Contour: CDS cluster naming and the Ingress processor

    A shallow embedding of [internal/envoy/cluster.go] (Clustername,
    Hashname, truncate, min) and of the Ingress processor of package [dag]
    (computeSecureVirtualhosts, computeIngresses, computeIngressRule, route,
    rulesFromSpec, defaultBackendRule, stringOrDefault, httppaths), together
    with the parts of the Go standard library they call. *)

From Stdlib Require Import ZArith String Ascii List Lia Bool.
From stdpp Require Import gmap strings list.

Local Open Scope string_scope.
Local Open Scope Z_scope.

(** ** Go strings

    A Go string is a sequence of bytes and [len] counts bytes; a Rocq
    [string] is a sequence of [ascii], one per byte. *)
Module gostrings.

(** [len(s)], a Go [int]. *)
Definition len (s : string) : Z := Z.of_nat (String.length s).

(** The slice expression [s[:n]]: a run-time panic ([None]) unless
    [0 <= n <= len(s)]. *)
Definition slice_to (s : string) (n : Z) : option string :=
  if (0 <=? n) && (n <=? len s) then Some (substring 0 (Z.to_nat n) s) else None.

(** [strings.Join(a, sep)]. *)
Fixpoint Join (a : list string) (sep : string) : string :=
  match a with
  | [] => ""
  | [x] => x
  | x :: rest => x ++ sep ++ Join rest sep
  end.

(** Whether byte [c] occurs in [s]. *)
Fixpoint has_byte (c : ascii) (s : string) : bool :=
  match s with
  | EmptyString => false
  | String d rest => if Ascii.eqb c d then true else has_byte c rest
  end.

(** [strings.ContainsAny(s, chars)] for a [chars] of ASCII bytes. *)
Fixpoint ContainsAny (s chars : string) : bool :=
  match s with
  | EmptyString => false
  | String c rest => if has_byte c chars then true else ContainsAny rest chars
  end.

(** [strings.Contains(s, substr)]. *)
Fixpoint Contains (s substr : string) : bool :=
  if String.prefix substr s then true
  else match s with
       | EmptyString => false
       | String _ rest => Contains rest substr
       end.

(** The bytes of a string, as numbers. *)
Fixpoint bytes (s : string) : list Z :=
  match s with
  | EmptyString => []
  | String c rest => Z.of_N (N_of_ascii c) :: bytes rest
  end.

(** One decimal digit. *)
Definition digit (d : Z) : ascii := ascii_of_N (Z.to_N (48 + d)).

(** The loop [for v > 0] of [fmtInt]: the decimal digits of [v] are
    written in front of [acc], least significant first. The fuel is the
    number of binary digits of [v], which bounds the number of rounds. *)
Fixpoint digits (fuel : nat) (v : Z) (acc : string) : string :=
  match fuel with
  | O => acc
  | S fuel' =>
      if v >? 0 then digits fuel' (v / 10) (String (digit (v mod 10)) acc)
      else acc
  end.

(** [fmtInt(buf, v)] of package [time]: [v] in decimal, written in front
    of what the buffer holds already. *)
Definition fmtInt (v : Z) (acc : string) : string :=
  if v =? 0 then String "0" acc else digits (S (Z.to_nat (Z.log2 v))) v acc.

(** [strconv.Itoa(i)]. *)
Definition Itoa (i : Z) : string :=
  if i <? 0 then String "-" (fmtInt (- i) "") else fmtInt i "".

(** One lower-case hexadecimal digit. *)
Definition hexdigit (d : Z) : ascii :=
  if d <? 10 then ascii_of_N (Z.to_N (48 + d)) else ascii_of_N (Z.to_N (87 + d)).

(** [fmt.Sprintf("%x", b)] for a byte slice or array [b]. *)
Fixpoint hex (b : list Z) : string :=
  match b with
  | [] => ""
  | x :: rest => String (hexdigit (Z.shiftr x 4)) (String (hexdigit (Z.land x 15)) (hex rest))
  end.

End gostrings.

(** ** 32-bit words, shared by the two digests *)
Module word32.

Definition wrap (x : Z) : Z := Z.land x 4294967295.
Definition add (x y : Z) : Z := wrap (x + y).
Definition rotl (n x : Z) : Z := wrap (Z.lor (Z.shiftl x n) (Z.shiftr x (32 - n))).
Definition rotr (n x : Z) : Z := rotl (32 - n) x.
Definition not (x : Z) : Z := Z.lxor x 4294967295.

(** The four bytes of a word, big-endian. *)
Definition to_bytes (x : Z) : list Z :=
  [Z.land (Z.shiftr x 24) 255; Z.land (Z.shiftr x 16) 255;
   Z.land (Z.shiftr x 8) 255; Z.land x 255].

(** Big-endian words of a byte sequence whose length is a multiple of 4. *)
Fixpoint of_bytes (b : list Z) : list Z :=
  match b with
  | b0 :: b1 :: b2 :: b3 :: rest =>
      (Z.shiftl b0 24 + Z.shiftl b1 16 + Z.shiftl b2 8 + b3) :: of_bytes rest
  | _ => []
  end.

(** The padding of FIPS 180-4, section 5.1.1: a 1 bit, zero bits up to
    56 modulo 64 bytes, and the bit length as a 64-bit big-endian number. *)
Definition pad (msg : list Z) : list Z :=
  let n := Z.of_nat (length msg) in
  let bits := 8 * n in
  msg ++ [128] ++ repeat 0 (Z.to_nat ((55 - n) mod 64))
      ++ to_bytes (Z.shiftr bits 32) ++ to_bytes bits.

(** Cut a word sequence into blocks of sixteen words. *)
Fixpoint blocks (fuel : nat) (w : list Z) : list (list Z) :=
  match fuel, w with
  | S fuel', _ :: _ => firstn 16 w :: blocks fuel' (skipn 16 w)
  | _, _ => []
  end.

Definition message_blocks (msg : list Z) : list (list Z) :=
  let w := of_bytes (pad msg) in blocks (length w) w.

End word32.

(** ** crypto/sha256 (FIPS 180-4, section 6.2) *)
Module sha256.
Import word32.

(** The first sixty-four prime numbers. *)
Definition primes : list Z :=
  [2; 3; 5; 7; 11; 13; 17; 19; 23; 29; 31; 37; 41; 43; 47; 53; 59; 61; 67; 71;
   73; 79; 83; 89; 97; 101; 103; 107; 109; 113; 127; 131; 137; 139; 149; 151;
   157; 163; 167; 173; 179; 181; 191; 193; 197; 199; 211; 223; 227; 229; 233;
   239; 241; 251; 257; 263; 269; 271; 277; 281; 283; 293; 307; 311].

(** The integer cube root of [n], found bit by bit from [bit] down. *)
Fixpoint cube_root (bit : nat) (n r : Z) : Z :=
  let r' := r + 2 ^ Z.of_nat bit in
  let r := if r' * r' * r' <=? n then r' else r in
  match bit with
  | O => r
  | S bit' => cube_root bit' n r
  end.

(** The round constants (section 4.2.2): the first thirty-two bits of the
    fractional parts of the cube roots of the first sixty-four primes. *)
Definition K : list Z :=
  Eval vm_compute in map (fun p => wrap (cube_root 40 (Z.shiftl p 96) 0)) primes.

Definition Ch (x y z : Z) : Z := Z.lxor (Z.land x y) (Z.land (not x) z).
Definition Maj (x y z : Z) : Z :=
  Z.lxor (Z.lxor (Z.land x y) (Z.land x z)) (Z.land y z).
Definition bsig0 (x : Z) : Z := Z.lxor (Z.lxor (rotr 2 x) (rotr 13 x)) (rotr 22 x).
Definition bsig1 (x : Z) : Z := Z.lxor (Z.lxor (rotr 6 x) (rotr 11 x)) (rotr 25 x).
Definition ssig0 (x : Z) : Z := Z.lxor (Z.lxor (rotr 7 x) (rotr 18 x)) (Z.shiftr x 3).
Definition ssig1 (x : Z) : Z := Z.lxor (Z.lxor (rotr 17 x) (rotr 19 x)) (Z.shiftr x 10).

(** The message schedule, most recent word first: [rev_w] holds
    [W(t-1), W(t-2), ...]. *)
Fixpoint schedule (n : nat) (rev_w : list Z) : list Z :=
  match n with
  | O => rev_w
  | S n' =>
      let wt := add (add (add (ssig1 (nth 1 rev_w 0)) (nth 6 rev_w 0))
                         (ssig0 (nth 14 rev_w 0))) (nth 15 rev_w 0) in
      schedule n' (wt :: rev_w)
  end.

Definition state : Type := Z * Z * Z * Z * Z * Z * Z * Z.

Definition round (st : state) (kw : Z * Z) : state :=
  let '(a, b, c, d, e, f, g, h) := st in
  let t1 := add (add (add (add h (bsig1 e)) (Ch e f g)) (fst kw)) (snd kw) in
  let t2 := add (bsig0 a) (Maj a b c) in
  (add t1 t2, a, b, c, add d t1, e, f, g).

Definition compress (st : state) (block : list Z) : state :=
  let w := rev (schedule 48 (rev block)) in
  let '(a, b, c, d, e, f, g, h) := fold_left round (combine K w) st in
  let '(a0, b0, c0, d0, e0, f0, g0, h0) := st in
  (add a0 a, add b0 b, add c0 c, add d0 d, add e0 e, add f0 f, add g0 g, add h0 h).

(** The initial hash value (section 5.3.3): the first thirty-two bits of
    the fractional parts of the square roots of the first eight primes. *)
Definition init : state :=
  Eval vm_compute in
    let h := fun p => wrap (Z.sqrt (Z.shiftl p 64)) in
    (h 2, h 3, h 5, h 7, h 11, h 13, h 17, h 19).

(** [sha256.Sum256(data)]: the 32 bytes of the digest. *)
Definition Sum256 (data : list Z) : list Z :=
  let '(a, b, c, d, e, f, g, h) := fold_left compress (message_blocks data) init in
  to_bytes a ++ to_bytes b ++ to_bytes c ++ to_bytes d
    ++ to_bytes e ++ to_bytes f ++ to_bytes g ++ to_bytes h.

End sha256.

(** ** crypto/sha1 (FIPS 180-4, section 6.1) *)
Module sha1.
Import word32.

(** The schedule of SHA-1, most recent word first. *)
Fixpoint schedule (n : nat) (rev_w : list Z) : list Z :=
  match n with
  | O => rev_w
  | S n' =>
      let wt := rotl 1 (Z.lxor (Z.lxor (Z.lxor (nth 2 rev_w 0) (nth 7 rev_w 0))
                                       (nth 13 rev_w 0)) (nth 15 rev_w 0)) in
      schedule n' (wt :: rev_w)
  end.

Definition state : Type := Z * Z * Z * Z * Z.

(** The round function and constant of round [t]. *)
Definition f (t : nat) (b c d : Z) : Z :=
  if (t <? 20)%nat then Z.lor (Z.land b c) (Z.land (not b) d)
  else if (t <? 40)%nat then Z.lxor (Z.lxor b c) d
  else if (t <? 60)%nat then Z.lor (Z.lor (Z.land b c) (Z.land b d)) (Z.land c d)
  else Z.lxor (Z.lxor b c) d.

Definition K (t : nat) : Z :=
  if (t <? 20)%nat then 0x5a827999
  else if (t <? 40)%nat then 0x6ed9eba1
  else if (t <? 60)%nat then 0x8f1bbcdc
  else 0xca62c1d6.

Definition round (st : state) (tw : nat * Z) : state :=
  let '(a, b, c, d, e) := st in
  let t := fst tw in
  let temp := add (add (add (add (rotl 5 a) (f t b c d)) e) (K t)) (snd tw) in
  (temp, a, rotl 30 b, c, d).

Definition compress (st : state) (block : list Z) : state :=
  let w := rev (schedule 64 (rev block)) in
  let '(a, b, c, d, e) := fold_left round (combine (seq 0 80) w) st in
  let '(a0, b0, c0, d0, e0) := st in
  (add a0 a, add b0 b, add c0 c, add d0 d, add e0 e).

Definition init : state :=
  (0x67452301, 0xefcdab89, 0x98badcfe, 0x10325476, 0xc3d2e1f0).

(** [sha1.Sum(data)]: the 20 bytes of the digest. *)
Definition Sum (data : list Z) : list Z :=
  let '(a, b, c, d, e) := fold_left compress (message_blocks data) init in
  to_bytes a ++ to_bytes b ++ to_bytes c ++ to_bytes d ++ to_bytes e.

End sha1.

(** ** time.Duration *)
Module gotime.
Import gostrings.

(** Two's-complement wrap-around of a 64-bit signed integer. *)
Definition wrap64 (x : Z) : Z := (x + 2 ^ 63) mod 2 ^ 64 - 2 ^ 63.

Definition Microsecond : Z := 1000.
Definition Millisecond : Z := 1000000.
Definition Second : Z := 1000000000.

(** The conversion [time.Duration(x)] and the product [d * e] of two
    durations, both int64. *)
Definition Duration (x : Z) : Z := wrap64 x.
Definition mul (d e : Z) : Z := wrap64 (d * e).

(** [fmtFrac(buf, v, prec)]: the fraction of [v / 10^prec] in front of
    [acc], without trailing zeros, and without the point when the fraction
    is zero; returns the buffer and [v / 10^prec]. *)
Fixpoint fmtFrac (prec : nat) (v : Z) (print : bool) (acc : string) : string * Z :=
  match prec with
  | O => (if print then String "." acc else acc, v)
  | S prec' =>
      let d := v mod 10 in
      let print := print || negb (d =? 0) in
      fmtFrac prec' (v / 10) print (if print then String (digit d) acc else acc)
  end.

(** The two bytes of the micro sign in UTF-8. *)
Definition micro : string :=
  String (ascii_of_N 194) (String (ascii_of_N 181) "").

(** [Duration.String()]. *)
Definition Duration_String (d : Z) : string :=
  let u := Z.abs d in
  let body :=
    if u <? Second then
      if u =? 0 then "0s"
      else
        let '(unit, prec) :=
          if u <? Microsecond then ("ns", 0%nat)
          else if u <? Millisecond then (micro ++ "s", 3%nat)
          else ("ms", 6%nat) in
        let '(w, u) := fmtFrac prec u false unit in
        fmtInt u w
    else
      let '(w, u) := fmtFrac 9 u false "s" in
      let w := fmtInt (u mod 60) w in
      let u := u / 60 in
      if u >? 0 then
        let w := fmtInt (u mod 60) (String "m" w) in
        let u := u / 60 in
        if u >? 0 then fmtInt u (String "h" w) else w
      else w in
  if d <? 0 then String "-" body else body.

End gotime.

(** ** The Kubernetes API types the Ingress processor reads *)
Module types.
Record NamespacedName := { Namespace : string; Name : string }.
End types.

Module v1beta1.
(** [intstr.IntOrString]. *)
Inductive IntOrString := FromInt (i : Z) | FromString (s : string).

Record IngressBackend := { ServiceName : string; ServicePort : IntOrString }.
Record HTTPIngressPath := { Path : string; Backend : IngressBackend }.
Record HTTPIngressRuleValue := { Paths : list HTTPIngressPath }.
(** [IngressRuleValue.HTTP] is a pointer, [None] when nil. *)
Record IngressRule := { Host : string; HTTP : option HTTPIngressRuleValue }.
Record IngressTLS := { Hosts : list string; SecretName : string }.
(** [IngressSpec.Backend] is a pointer, [None] when nil. *)
Record IngressSpec := {
  spec_Backend : option IngressBackend;
  TLS : list IngressTLS;
  Rules : list IngressRule
}.
Record Ingress := {
  Name : string;
  Namespace : string;
  Annotations : gmap string string;
  Spec : IngressSpec
}.
End v1beta1.

(** ** Package dag *)
Module dag.
Import gostrings.

(** Modelled from the spec: the health-check policy of a Service (timeout,
    interval, thresholds, path), declared elsewhere in the repository. The
    numeric fields are integers of at most 64 bits. *)
Record HealthCheckPolicy := {
  Path : string;
  IntervalSeconds : Z;
  TimeoutSeconds : Z;
  UnhealthyThresholdCount : Z;
  HealthyThresholdCount : Z
}.

(** Modelled from the spec: a Service (namespace-qualified name, port,
    protocol, load-balancer strategy, optional health-check policy),
    declared elsewhere in the repository. *)
Record Service := {
  Namespace : string;
  Name : string;
  Port : Z;
  Protocol : string;
  LoadBalancerStrategy : string;
  HealthCheck : option HealthCheckPolicy
}.

(** The two implementations of the [MatchCondition] interface that
    [route] builds. *)
Inductive MatchCondition :=
| PrefixMatchCondition (Prefix : string)
| RegexMatchCondition (Regex : string).

Record Cluster := { Upstream : Service; cluster_Protocol : string }.

(** Modelled from the spec: what the processor consumes from other
    packages of the repository: the types of the policies, secrets and
    errors, the annotation helpers, the secret validator, the policy
    builders and the namespaced-name helper ([NamespacedNameFrom name ns] is
    [k8s.NamespacedNameFrom(name, k8s.DefaultNamespace(ns))]). *)
Class Collaborators := {
  TimeoutPolicy : Type;
  RetryPolicy : Type;
  Secret : Type;
  error : Type;
  TLSRequired : v1beta1.Ingress -> bool;
  HTTPAllowed : v1beta1.Ingress -> bool;
  WebsocketRoutes : v1beta1.Ingress -> gmap string bool;
  MinTLSVersion : string -> Z;
  CompatAnnotation : v1beta1.Ingress -> string -> string;
  ingressTimeoutPolicy : v1beta1.Ingress -> TimeoutPolicy;
  ingressRetryPolicy : v1beta1.Ingress -> RetryPolicy;
  validSecret : Secret -> option error;
  NamespacedNameFrom : string -> string -> types.NamespacedName
}.

Section Processor.
Context `{Collaborators}.

Record Route := {
  PathMatchCondition : MatchCondition;
  HTTPSUpgrade : bool;
  Websocket : bool;
  route_TimeoutPolicy : TimeoutPolicy;
  route_RetryPolicy : RetryPolicy;
  Clusters : list Cluster
}.

(** Modelled from the spec: a virtual host is identified by its
    hostname and owns an ordered collection of Routes. *)
Record VirtualHost := { vhost_Name : string; routes : list Route }.

(** Modelled from the spec: the VirtualHost variant that carries a TLS
    Secret reference (nil until set) and a minimum TLS version (an enum,
    by its number). *)
Record SecureVirtualHost := {
  svhost_VirtualHost : VirtualHost;
  svhost_MinTLSVersion : Z;
  svhost_Secret : option Secret
}.

(** Modelled from the spec: the Resource Source, a snapshot exposed
    through lookup capabilities and an enumerable collection of
    ingresses. A Go result [(v, err)] is [inl v] or [inr err]. *)
Record KubernetesCache := {
  ingresses : list v1beta1.Ingress;
  LookupSecret :
    types.NamespacedName -> (Secret -> option error) -> Secret + error;
  LookupService :
    types.NamespacedName -> v1beta1.IntOrString -> Service + error;
  DelegationPermitted : types.NamespacedName -> string -> bool
}.

(** Modelled from the spec: a structured diagnostic (resource identity,
    namespace, attempted secret name), with the error and the message
    it was logged with. *)
Record Diagnostic := {
  diag_error : option error;
  diag_name : string;
  diag_namespace : string;
  diag_secret : types.NamespacedName;
  diag_message : string
}.

(** Modelled from the spec: the Builder owns the graph under
    construction, two keyed mappings from hostname to virtual host, and
    the diagnostics recorded so far. *)
Record Builder := {
  Source : KubernetesCache;
  virtualhosts : gmap string VirtualHost;
  securevirtualhosts : gmap string SecureVirtualHost;
  diagnostics : list Diagnostic
}.

Definition with_virtualhosts (b : Builder) (m : gmap string VirtualHost) : Builder :=
  {| Source := Source b; virtualhosts := m;
     securevirtualhosts := securevirtualhosts b; diagnostics := diagnostics b |}.

Definition with_securevirtualhosts (b : Builder) (m : gmap string SecureVirtualHost)
  : Builder :=
  {| Source := Source b; virtualhosts := virtualhosts b;
     securevirtualhosts := m; diagnostics := diagnostics b |}.

(** Modelled from the spec: [WithError(err).WithField("name", ..)
    .WithField("namespace", ..).WithField("secret", ..).Error(msg)]
    records one diagnostic. *)
Definition Error (b : Builder) (err : option error) (ing : v1beta1.Ingress)
    (secretName : types.NamespacedName) (msg : string) : Builder :=
  {| Source := Source b; virtualhosts := virtualhosts b;
     securevirtualhosts := securevirtualhosts b;
     diagnostics := diagnostics b ++
       [{| diag_error := err; diag_name := v1beta1.Name ing;
           diag_namespace := v1beta1.Namespace ing;
           diag_secret := secretName; diag_message := msg |}] |}.

(** Modelled from the spec: [addRoute] appends to the collection. *)
Definition addRoute (v : VirtualHost) (r : Route) : VirtualHost :=
  {| vhost_Name := vhost_Name v; routes := routes v ++ [r] |}.

(** Modelled from the spec: the idempotent get-or-create accessors of
    the Builder. They return a pointer; here the entry stays in the
    mapping and is updated there. *)
Definition lookupVirtualHost (b : Builder) (name : string) : Builder :=
  match virtualhosts b !! name with
  | Some _ => b
  | None =>
      with_virtualhosts b
        (<[name := {| vhost_Name := name; routes := [] |}]> (virtualhosts b))
  end.

(** Modelled from the spec: the accessor for secure virtual hosts; a new
    entry has no secret and the zero value of the TLS version. *)
Definition lookupSecureVirtualHost (b : Builder) (name : string) : Builder :=
  match securevirtualhosts b !! name with
  | Some _ => b
  | None =>
      with_securevirtualhosts b
        (<[name := {| svhost_VirtualHost := {| vhost_Name := name; routes := [] |};
                      svhost_MinTLSVersion := 0;
                      svhost_Secret := None |}]> (securevirtualhosts b))
  end.

(** Modelled from the spec: the Service is resolved by namespaced name
    and port through the Source. *)
Definition lookupService (b : Builder) (m : types.NamespacedName)
    (port : v1beta1.IntOrString) : Service + error :=
  LookupService (Source b) m port.

(** *** The Ingress processor, from the source *)

(** The body of the inner loop of [computeSecureVirtualhosts], for one
    TLS block of one ingress. *)
Definition computeSecureVirtualhosts_tls (ing : v1beta1.Ingress) (b : Builder)
    (tls : v1beta1.IngressTLS) : Builder :=
  let secretName :=
    NamespacedNameFrom (v1beta1.SecretName tls) (v1beta1.Namespace ing) in
  match LookupSecret (Source b) secretName validSecret with
  | inr err => Error b (Some err) ing secretName "unresolved secret reference"
  | inl sec =>
      if negb (DelegationPermitted (Source b) secretName (v1beta1.Namespace ing))
      then Error b None ing secretName "certificate delegation not permitted"
      else
        foldl (fun b host =>
                 let b := lookupSecureVirtualHost b host in
                 with_securevirtualhosts b
                   (alter (fun svhost =>
                             {| svhost_VirtualHost := svhost_VirtualHost svhost;
                                svhost_MinTLSVersion :=
                                  MinTLSVersion
                                    (CompatAnnotation ing "tls-minimum-protocol-version");
                                svhost_Secret := Some sec |})
                          host (securevirtualhosts b)))
              b (v1beta1.Hosts tls)
  end.

(** [computeSecureVirtualhosts] populates tls parameters of secure
    virtual hosts. *)
Definition computeSecureVirtualhosts (b : Builder) : Builder :=
  foldl (fun b ing => foldl (computeSecureVirtualhosts_tls ing) b
                            (v1beta1.TLS (v1beta1.Spec ing)))
        b (ingresses (Source b)).

(** [route] builds a [dag.Route] for the supplied Ingress. *)
Definition route (ingress : v1beta1.Ingress) (path : string) (service : Service)
  : Route :=
  let wr := WebsocketRoutes ingress in
  {| PathMatchCondition :=
       if ContainsAny path "^+*[]%"
       then RegexMatchCondition path
       else PrefixMatchCondition path;
     HTTPSUpgrade := TLSRequired ingress;
     Websocket := default false (wr !! path);
     route_TimeoutPolicy := ingressTimeoutPolicy ingress;
     route_RetryPolicy := ingressRetryPolicy ingress;
     Clusters := [{| Upstream := service; cluster_Protocol := Protocol service |}] |}.

(** [defaultBackendRule] returns an IngressRule that represents the
    IngressBackend. *)
Definition defaultBackendRule (be : v1beta1.IngressBackend) : v1beta1.IngressRule :=
  {| v1beta1.Host := "";
     v1beta1.HTTP := Some
       {| v1beta1.Paths :=
            [{| v1beta1.Path := "";
                v1beta1.Backend :=
                  {| v1beta1.ServiceName := v1beta1.ServiceName be;
                     v1beta1.ServicePort := v1beta1.ServicePort be |} |}] |} |}.

(** [rulesFromSpec] merges the IngressSpec's Rules with a synthetic
    rule representing the default backend. *)
Definition rulesFromSpec (spec : v1beta1.IngressSpec) : list v1beta1.IngressRule :=
  let rules := v1beta1.Rules spec in
  match v1beta1.spec_Backend spec with
  | Some backend => rules ++ [defaultBackendRule backend]
  | None => rules
  end.

Definition stringOrDefault (s def : string) : string :=
  if String.eqb s "" then def else s.

(** [httppaths] returns a slice of HTTPIngressPath values for a given
    IngressRule. *)
Definition httppaths (rule : v1beta1.IngressRule) : list v1beta1.HTTPIngressPath :=
  match v1beta1.HTTP rule with
  | None => []
  | Some http => v1beta1.Paths http
  end.

(** The body of the loop of [computeIngressRule], for one path of a
    rule whose host has been normalised to [host]. *)
Definition computeIngressRule_path (ing : v1beta1.Ingress) (host : string)
    (b : Builder) (httppath : v1beta1.HTTPIngressPath) : Builder :=
  let path := stringOrDefault (v1beta1.Path httppath) "/" in
  let be := v1beta1.Backend httppath in
  let m := {| types.Name := v1beta1.ServiceName be;
              types.Namespace := v1beta1.Namespace ing |} in
  match lookupService b m (v1beta1.ServicePort be) with
  | inr _ => b
  | inl s =>
      let r := route ing path s in
      let b :=
        if TLSRequired ing || HTTPAllowed ing
        then
          let b := lookupVirtualHost b host in
          with_virtualhosts b
            (alter (fun v => addRoute v r) host (virtualhosts b))
        else b in
      match securevirtualhosts b !! host with
      | Some svh =>
          if negb (String.eqb host "*")
          then
            with_securevirtualhosts b
              (<[host := {| svhost_VirtualHost := addRoute (svhost_VirtualHost svh) r;
                            svhost_MinTLSVersion := svhost_MinTLSVersion svh;
                            svhost_Secret := svhost_Secret svh |}]>
                 (securevirtualhosts b))
          else b
      | None => b
      end
  end.

Definition computeIngressRule (ing : v1beta1.Ingress) (b : Builder)
    (rule : v1beta1.IngressRule) : Builder :=
  let host := v1beta1.Host rule in
  if Contains host "*" then b
  else
    let host := if String.eqb host "" then "*" else host in
    foldl (computeIngressRule_path ing host) b (httppaths rule).

Definition computeIngresses (b : Builder) : Builder :=
  foldl (fun b ing => foldl (computeIngressRule ing) b
                            (rulesFromSpec (v1beta1.Spec ing)))
        b (ingresses (Source b)).

(** [Run] translates Ingresses into DAG objects and adds them to the
    DAG builder. *)
Definition Run (builder : Builder) : Builder :=
  computeIngresses (computeSecureVirtualhosts builder).

End Processor.

End dag.

(** ** Package envoy: internal/envoy/cluster.go *)
Module envoy.
Import gostrings gotime.

Definition min (a b : Z) : Z := if a >? b then b else a.

(** [truncate] truncates [s] to [l] length by replacing the end of [s]
    with [-suffix]. [None] is a run-time panic of a slice expression. *)
Definition truncate (l : Z) (s suffix : string) : option string :=
  if l >=? len s then Some s
  else if l <=? len suffix then slice_to suffix (min l (len suffix))
  else match slice_to s (l - len suffix - 1) with
       | Some head => Some (head ++ "-" ++ suffix)
       | None => None
       end.

(** The length of the shorthash. *)
Definition shorthash : Z := 6.

(** The loop [for n := len(s) - 1; n >= 0; n--] of [Hashname], entered
    with [k = n + 1], followed by the final [return]. The slice [s] is
    updated in place, so it is returned next to the result; a result of
    [None] is a run-time panic. Go's [/] on integers is [Z.quot]. *)
Fixpoint Hashname_loop (l : Z) (hash : string) (k : nat) (s : list string)
  : list string * option string :=
  match k with
  | O => (s, slice_to hash (min (len hash) l))
  | S n =>
      match s !! n, slice_to hash shorthash with
      | Some sn, Some short =>
          match truncate (Z.quot l (Z.of_nat (length s))) sn short with
          | Some t =>
              let s := <[n := t]> s in
              let r := Join s "/" in
              if l >? len r then (s, Some r) else Hashname_loop l hash n s
          | None => (s, None)
          end
      | _, _ => (s, None)
      end
  end.

(** [Hashname] takes a length [l] and a slice of strings [s]; it returns
    the slice as the call leaves it and the string returned. *)
Definition Hashname (l : Z) (s : list string) : list string * option string :=
  let r := Join s "/" in
  if l >? len r then (s, Some r)
  else
    let hash := hex (sha256.Sum256 (bytes r)) in
    Hashname_loop l hash (length s) s.

(** The string that [Clustername] hashes. *)
Definition Clustername_buf (service : dag.Service) : string :=
  let buf := dag.LoadBalancerStrategy service in
  match dag.HealthCheck service with
  | Some hc =>
      let buf :=
        if dag.TimeoutSeconds hc >? 0
        then buf ++ Duration_String (mul (Duration (dag.TimeoutSeconds hc)) Second)
        else buf in
      let buf :=
        if dag.IntervalSeconds hc >? 0
        then buf ++ Duration_String (mul (Duration (dag.IntervalSeconds hc)) Second)
        else buf in
      let buf :=
        if dag.UnhealthyThresholdCount hc >? 0
        then buf ++ Itoa (wrap64 (dag.UnhealthyThresholdCount hc))
        else buf in
      let buf :=
        if dag.HealthyThresholdCount hc >? 0
        then buf ++ Itoa (wrap64 (dag.HealthyThresholdCount hc))
        else buf in
      buf ++ dag.Path hc
  | None => buf
  end.

(** [Clustername] returns the name of the CDS cluster for this service.
    The variadic call builds a fresh slice, which is dropped. *)
Definition Clustername (service : dag.Service) : option string :=
  let buf := Clustername_buf service in
  let hash := sha1.Sum (bytes buf) in
  let ns := dag.Namespace service in
  let name := dag.Name service in
  snd (Hashname 60 [ns; name; Itoa (wrap64 (dag.Port service)); hex (firstn 5 hash)]).

End envoy.

(** ** What [Hashname] leaves in a segment

    [truncated budget short seg] is the value [truncate] computes when it
    does not panic, and [truncated_from budget short c s] is the slice [s]
    once the elements from index [c] on have been overwritten. *)
Module naming.
Import gostrings.

Definition truncated (budget : Z) (short seg : string) : string :=
  if len seg <=? budget then seg
  else if budget <=? len short then substring 0 (Z.to_nat budget) short
  else substring 0 (Z.to_nat (budget - len short - 1)) seg ++ "-" ++ short.

Definition truncated_from (budget : Z) (short : string) (c : nat) (s : list string)
  : list string :=
  take c s ++ map (truncated budget short) (drop c s).

(** The hash, the shorthash and the budget of a call [Hashname(l, s...)]. *)
Definition hash_of (s : list string) : string :=
  hex (sha256.Sum256 (bytes (Join s "/"))).
Definition short_of (s : list string) : string := substring 0 6 (hash_of s).
Definition budget_of (l : Z) (s : list string) : Z := Z.quot l (Z.of_nat (length s)).

(** The joined string once the elements from index [c] on are truncated. *)
Definition candidate (l : Z) (s : list string) (c : nat) : string :=
  Join (truncated_from (budget_of l s) (short_of s) c s) "/".

End naming.

(** ** Services that differ in the health-check interval only *)
Module services.
Import gostrings.

(** The Service [svc] with the health-check policy [hc], whose
    [IntervalSeconds] is set to [i]. *)
Definition with_interval (svc : dag.Service) (hc : dag.HealthCheckPolicy) (i : Z)
  : dag.Service :=
  {| dag.Namespace := dag.Namespace svc;
     dag.Name := dag.Name svc;
     dag.Port := dag.Port svc;
     dag.Protocol := dag.Protocol svc;
     dag.LoadBalancerStrategy := dag.LoadBalancerStrategy svc;
     dag.HealthCheck := Some
       {| dag.Path := dag.Path hc;
          dag.IntervalSeconds := i;
          dag.TimeoutSeconds := dag.TimeoutSeconds hc;
          dag.UnhealthyThresholdCount := dag.UnhealthyThresholdCount hc;
          dag.HealthyThresholdCount := dag.HealthyThresholdCount hc |} |}.

(** The five bytes of the SHA-1 digest that [Clustername] prints. *)
Definition disambiguator (svc : dag.Service) : string :=
  hex (firstn 5 (sha1.Sum (bytes (envoy.Clustername_buf svc)))).

(** Reads the seconds back from a duration printed as hours, minutes and
    seconds: [total] holds the units read so far, [cur] the digits of the
    number being read. *)
Fixpoint seconds (str : string) (total cur : Z) : Z :=
  match str with
  | EmptyString => total
  | String c rest =>
      if Ascii.eqb c "h" then seconds rest (total + 3600 * cur) 0
      else if Ascii.eqb c "m" then seconds rest (total + 60 * cur) 0
      else if Ascii.eqb c "s" then seconds rest (total + cur) 0
      else seconds rest total (10 * cur + (Z.of_N (N_of_ascii c) - 48))
  end.

(** A Service of the default namespace and a health-check policy with
    nothing set. *)
Definition echo : dag.Service :=
  {| dag.Namespace := "default"; dag.Name := "echo"; dag.Port := 80;
     dag.Protocol := ""; dag.LoadBalancerStrategy := ""; dag.HealthCheck := None |}.

Definition no_policy : dag.HealthCheckPolicy :=
  {| dag.Path := ""; dag.IntervalSeconds := 0; dag.TimeoutSeconds := 0;
     dag.UnhealthyThresholdCount := 0; dag.HealthyThresholdCount := 0 |}.

End services.

(** ** Views of a run of the Ingress processor

    What the two phases read and write, as lists and lookups: the TLS
    blocks Phase A visits, the routes Phase B builds, and the routes a
    virtual host holds. They follow the loops of the processor. *)
Module processor.
Import gostrings.
Section Views.
Context `{dag.Collaborators}.

(** The routes of the plaintext virtual host [host]; none without an entry. *)
Definition plain_routes (b : dag.Builder) (host : string) : list dag.Route :=
  match dag.virtualhosts b !! host with
  | Some v => dag.routes v
  | None => []
  end.

(** The routes of the secure virtual host [host]; none without an entry. *)
Definition secure_routes (b : dag.Builder) (host : string) : list dag.Route :=
  match dag.securevirtualhosts b !! host with
  | Some svh => dag.routes (dag.svhost_VirtualHost svh)
  | None => []
  end.

(** The name Phase A looks the secret of a TLS block up under. *)
Definition secret_name (ing : v1beta1.Ingress) (tls : v1beta1.IngressTLS)
  : types.NamespacedName :=
  dag.NamespacedNameFrom (v1beta1.SecretName tls) (v1beta1.Namespace ing).

(** Both checks of Phase A pass for a TLS block: the secret is looked up
    and validated without an error, and delegation is permitted. *)
Definition tls_ok (src : dag.KubernetesCache) (blk : v1beta1.Ingress * v1beta1.IngressTLS)
  : bool :=
  match dag.LookupSecret src (secret_name blk.1 blk.2) dag.validSecret with
  | inl _ => dag.DelegationPermitted src (secret_name blk.1 blk.2) (v1beta1.Namespace blk.1)
  | inr _ => false
  end.

(** The TLS blocks in the order Phase A visits them, each with its ingress. *)
Definition tls_blocks (src : dag.KubernetesCache)
  : list (v1beta1.Ingress * v1beta1.IngressTLS) :=
  flat_map (fun ing => map (pair ing) (v1beta1.TLS (v1beta1.Spec ing)))
           (dag.ingresses src).

(** Some TLS block that lists [host] passes both checks of Phase A. *)
Definition tls_resolved (src : dag.KubernetesCache) (host : string) : Prop :=
  exists blk, In blk (tls_blocks src) /\ tls_ok src blk = true
              /\ In host (v1beta1.Hosts blk.2).

(** One round of the inner loop of Phase A. *)
Definition tls_step (b : dag.Builder) (blk : v1beta1.Ingress * v1beta1.IngressTLS)
  : dag.Builder :=
  dag.computeSecureVirtualhosts_tls blk.1 b blk.2.

(** What Phase A does for one host of a TLS block that passed both checks
    with the secret [sec]. *)
Definition secure_host (ing : v1beta1.Ingress) (sec : dag.Secret) (b : dag.Builder)
    (host : string) : dag.Builder :=
  let b := dag.lookupSecureVirtualHost b host in
  dag.with_securevirtualhosts b
    (alter (fun svhost =>
              {| dag.svhost_VirtualHost := dag.svhost_VirtualHost svhost;
                 dag.svhost_MinTLSVersion :=
                   dag.MinTLSVersion
                     (dag.CompatAnnotation ing "tls-minimum-protocol-version");
                 dag.svhost_Secret := Some sec |})
           host (dag.securevirtualhosts b)).

(** The routes Phase B builds, each with its ingress and the normalised
    host of its rule, in the order they are built. *)
Definition path_routes (src : dag.KubernetesCache) (ing : v1beta1.Ingress)
    (host : string) (httppath : v1beta1.HTTPIngressPath)
  : list (v1beta1.Ingress * string * dag.Route) :=
  let be := v1beta1.Backend httppath in
  match dag.LookupService src
          {| types.Name := v1beta1.ServiceName be;
             types.Namespace := v1beta1.Namespace ing |}
          (v1beta1.ServicePort be) with
  | inl s => [(ing, host, dag.route ing (dag.stringOrDefault (v1beta1.Path httppath) "/") s)]
  | inr _ => []
  end.

Definition rule_routes (src : dag.KubernetesCache) (ing : v1beta1.Ingress)
    (rule : v1beta1.IngressRule) : list (v1beta1.Ingress * string * dag.Route) :=
  let host := v1beta1.Host rule in
  if Contains host "*" then []
  else
    let host := if String.eqb host "" then "*" else host in
    flat_map (path_routes src ing host) (dag.httppaths rule).

Definition built (src : dag.KubernetesCache)
  : list (v1beta1.Ingress * string * dag.Route) :=
  flat_map (fun ing => flat_map (rule_routes src ing)
                                (dag.rulesFromSpec (v1beta1.Spec ing)))
           (dag.ingresses src).

(** What Phase B does with one route it has built. *)
Definition attach (b : dag.Builder) (ev : v1beta1.Ingress * string * dag.Route)
  : dag.Builder :=
  let '(ing, host, r) := ev in
  let b :=
    if dag.TLSRequired ing || dag.HTTPAllowed ing
    then
      let b := dag.lookupVirtualHost b host in
      dag.with_virtualhosts b
        (alter (fun v => dag.addRoute v r) host (dag.virtualhosts b))
    else b in
  match dag.securevirtualhosts b !! host with
  | Some svh =>
      if negb (String.eqb host "*")
      then
        dag.with_securevirtualhosts b
          (<[host := {| dag.svhost_VirtualHost := dag.addRoute (dag.svhost_VirtualHost svh) r;
                        dag.svhost_MinTLSVersion := dag.svhost_MinTLSVersion svh;
                        dag.svhost_Secret := dag.svhost_Secret svh |}]>
             (dag.securevirtualhosts b))
      else b
  | None => b
  end.

(** Of the routes in [evs], those for [host] whose ingress satisfies [sel]. *)
Definition routes_for (sel : v1beta1.Ingress -> bool) (host : string)
    (evs : list (v1beta1.Ingress * string * dag.Route)) : list dag.Route :=
  flat_map (fun ev => if sel ev.1.1 && String.eqb ev.1.2 host then [ev.2] else []) evs.

(** The annotation-derived test of Phase B for port 80 routes. *)
Definition plaintext (ing : v1beta1.Ingress) : bool :=
  dag.TLSRequired ing || dag.HTTPAllowed ing.

(** The diagnostic Phase A records for a TLS block that fails a check. *)
Definition tls_diagnostic (src : dag.KubernetesCache)
    (blk : v1beta1.Ingress * v1beta1.IngressTLS) : dag.Diagnostic :=
  match dag.LookupSecret src (secret_name blk.1 blk.2) dag.validSecret with
  | inr err =>
      {| dag.diag_error := Some err; dag.diag_name := v1beta1.Name blk.1;
         dag.diag_namespace := v1beta1.Namespace blk.1;
         dag.diag_secret := secret_name blk.1 blk.2;
         dag.diag_message := "unresolved secret reference" |}
  | inl _ =>
      {| dag.diag_error := None; dag.diag_name := v1beta1.Name blk.1;
         dag.diag_namespace := v1beta1.Namespace blk.1;
         dag.diag_secret := secret_name blk.1 blk.2;
         dag.diag_message := "certificate delegation not permitted" |}
  end.

(** A Builder at the start of a run on the snapshot [src]: no virtual
    host, no diagnostic. *)
Definition fresh (src : dag.KubernetesCache) : dag.Builder :=
  {| dag.Source := src; dag.virtualhosts := ∅; dag.securevirtualhosts := ∅;
     dag.diagnostics := [] |}.

(** The characters that make [route] treat a path as a regular expression. *)
Definition regex_characters : list ascii := ["^"; "+"; "*"; "["; "]"; "%"]%char.

(** The path holds one of those characters. *)
Definition smells_like_regex (path : string) : Prop :=
  exists c : ascii, In c (list_ascii_of_string path) /\ In c regex_characters.

End Views.
End processor.

(** ** Snapshots for the examples *)
Module fixtures.
Import gostrings.

(** Collaborators for the examples: the two annotation tests read the
    annotations of the ingress, secrets and errors are strings, and nothing
    else is configured. *)
Definition stock : dag.Collaborators :=
  {| dag.TimeoutPolicy := unit;
     dag.RetryPolicy := unit;
     dag.Secret := string;
     dag.error := string;
     dag.TLSRequired := fun ing =>
       bool_decide (v1beta1.Annotations ing !! "ingress.kubernetes.io/force-ssl-redirect"
                    = Some "true");
     dag.HTTPAllowed := fun ing =>
       negb (bool_decide (v1beta1.Annotations ing !! "kubernetes.io/ingress.allow-http"
                          = Some "false"));
     dag.WebsocketRoutes := fun _ => ∅;
     dag.MinTLSVersion := fun _ => 0;
     dag.CompatAnnotation := fun ing key => default "" (v1beta1.Annotations ing !! key);
     dag.ingressTimeoutPolicy := fun _ => tt;
     dag.ingressRetryPolicy := fun _ => tt;
     dag.validSecret := fun _ => None;
     dag.NamespacedNameFrom := fun name ns =>
       {| types.Namespace := ns; types.Name := name |} |}.

#[local] Existing Instance stock.

Definition kuard : dag.Service :=
  {| dag.Namespace := "default"; dag.Name := "kuard"; dag.Port := 80;
     dag.Protocol := ""; dag.LoadBalancerStrategy := ""; dag.HealthCheck := None |}.

(** A snapshot with the ingresses [ings], the Service default/kuard and the
    secret default/tls-cert; every delegation is permitted. *)
Definition snapshot (ings : list v1beta1.Ingress) : dag.KubernetesCache :=
  {| dag.ingresses := ings;
     dag.LookupSecret := fun m _ =>
       if String.eqb (types.Name m) "tls-cert" then inl "certificate"
       else inr "secret not found";
     dag.LookupService := fun m _ =>
       if String.eqb (types.Name m) "kuard" then inl kuard
       else inr "service not found";
     dag.DelegationPermitted := fun _ _ => true |}.

Definition to_kuard : v1beta1.IngressBackend :=
  {| v1beta1.ServiceName := "kuard"; v1beta1.ServicePort := v1beta1.FromInt 80 |}.

Definition rule (host path : string) : v1beta1.IngressRule :=
  {| v1beta1.Host := host;
     v1beta1.HTTP := Some
       {| v1beta1.Paths := [{| v1beta1.Path := path; v1beta1.Backend := to_kuard |}] |} |}.

(** A default backend only, plaintext HTTP switched off by annotation. *)
Definition backend_no_http : v1beta1.Ingress :=
  {| v1beta1.Name := "kuard"; v1beta1.Namespace := "default";
     v1beta1.Annotations := {[ "kubernetes.io/ingress.allow-http" := "false" ]};
     v1beta1.Spec :=
       {| v1beta1.spec_Backend := Some to_kuard; v1beta1.TLS := [];
          v1beta1.Rules := [] |} |}.

(** A default backend only, no annotation. *)
Definition backend_only : v1beta1.Ingress :=
  {| v1beta1.Name := "kuard"; v1beta1.Namespace := "default";
     v1beta1.Annotations := ∅;
     v1beta1.Spec :=
       {| v1beta1.spec_Backend := Some to_kuard; v1beta1.TLS := [];
          v1beta1.Rules := [] |} |}.

(** A TLS block for a wildcard host with a secret that resolves, and a rule
    without a host. *)
Definition wildcard_tls : v1beta1.Ingress :=
  {| v1beta1.Name := "wild"; v1beta1.Namespace := "default";
     v1beta1.Annotations := ∅;
     v1beta1.Spec :=
       {| v1beta1.spec_Backend := None;
          v1beta1.TLS := [{| v1beta1.Hosts := ["*.example.com"];
                             v1beta1.SecretName := "tls-cert" |}];
          v1beta1.Rules := [rule "" "/"] |} |}.

(** Two TLS blocks, the first with a secret that is missing, the second
    with a secret that resolves, and a rule for each of their hosts. *)
Definition two_blocks : v1beta1.Ingress :=
  {| v1beta1.Name := "two"; v1beta1.Namespace := "default";
     v1beta1.Annotations := ∅;
     v1beta1.Spec :=
       {| v1beta1.spec_Backend := None;
          v1beta1.TLS := [{| v1beta1.Hosts := ["a.example.com"];
                             v1beta1.SecretName := "missing" |};
                          {| v1beta1.Hosts := ["b.example.com"];
                             v1beta1.SecretName := "tls-cert" |}];
          v1beta1.Rules := [rule "a.example.com" "/"; rule "b.example.com" "/"] |} |}.

Definition run (ings : list v1beta1.Ingress) : dag.Builder :=
  dag.Run (processor.fresh (snapshot ings)).

(** A TLS block for a wildcard host with a secret that resolves, and a rule
    for that same host whose Service resolves. *)
Definition wildcard_rule : v1beta1.Ingress :=
  {| v1beta1.Name := "wild-rule"; v1beta1.Namespace := "default";
     v1beta1.Annotations := ∅;
     v1beta1.Spec :=
       {| v1beta1.spec_Backend := None;
          v1beta1.TLS := [{| v1beta1.Hosts := ["*.example.com"];
                             v1beta1.SecretName := "tls-cert" |}];
          v1beta1.Rules := [rule "*.example.com" "/"] |} |}.

End fixtures.

(** ** Services with a given health-check policy *)
Module policies.

(** The Service [svc] with its health check replaced by [policy]. *)
Definition with_policy (svc : dag.Service) (policy : option dag.HealthCheckPolicy)
  : dag.Service :=
  {| dag.Namespace := dag.Namespace svc;
     dag.Name := dag.Name svc;
     dag.Port := dag.Port svc;
     dag.Protocol := dag.Protocol svc;
     dag.LoadBalancerStrategy := dag.LoadBalancerStrategy svc;
     dag.HealthCheck := policy |}.

(** The policy [hc] with the two threshold counts replaced. *)
Definition with_thresholds (hc : dag.HealthCheckPolicy) (unhealthy healthy : Z)
  : dag.HealthCheckPolicy :=
  {| dag.Path := dag.Path hc;
     dag.IntervalSeconds := dag.IntervalSeconds hc;
     dag.TimeoutSeconds := dag.TimeoutSeconds hc;
     dag.UnhealthyThresholdCount := unhealthy;
     dag.HealthyThresholdCount := healthy |}.

(** The four segments [Clustername] hands to [Hashname]. *)
Definition segments (svc : dag.Service) : list string :=
  [dag.Namespace svc; dag.Name svc; gostrings.Itoa (gotime.wrap64 (dag.Port svc));
   services.disambiguator svc].

(** The Service [svc] on another port. *)
Definition with_port (svc : dag.Service) (port : Z) : dag.Service :=
  {| dag.Namespace := dag.Namespace svc;
     dag.Name := dag.Name svc;
     dag.Port := port;
     dag.Protocol := dag.Protocol svc;
     dag.LoadBalancerStrategy := dag.LoadBalancerStrategy svc;
     dag.HealthCheck := dag.HealthCheck svc |}.

(** What follows the last slash of a string; the string itself when it
    holds no slash. *)
Fixpoint after_last_slash (s : string) : string :=
  match s with
  | EmptyString => ""
  | String c rest =>
      if gostrings.has_byte "/" rest then after_last_slash rest
      else if Ascii.eqb c "/" then rest else s
  end.

End policies.

(** ** What a secure virtual host carries besides its routes *)
Module graph.
Section Entries.
Context `{dag.Collaborators}.

(** The minimum TLS version Phase A derives from the annotations of [ing]. *)
Definition min_tls (ing : v1beta1.Ingress) : Z :=
  dag.MinTLSVersion (dag.CompatAnnotation ing "tls-minimum-protocol-version").

(** Name, secret and minimum TLS version of the secure virtual host under
    the key [host], when there is one. *)
Definition secure_entry (b : dag.Builder) (host : string)
  : option (string * option dag.Secret * Z) :=
  (fun svh => (dag.vhost_Name (dag.svhost_VirtualHost svh),
               dag.svhost_Secret svh,
               dag.svhost_MinTLSVersion svh))
    <$> dag.securevirtualhosts b !! host.

(** The name a secure virtual host for [host] has once Phase A has seen
    [host]: the one of the entry that was there, or [host] for a new one. *)
Definition name_of (old : option (string * option dag.Secret * Z)) (host : string)
  : string :=
  match old with
  | Some e => e.1.1
  | None => host
  end.

(** An entry is backed by a TLS block of the snapshot that lists its host
    and passed both checks. *)
Definition backed (src : dag.KubernetesCache) (h : string)
    (e : string * option dag.Secret * Z) : Prop :=
  e.1.1 = h
  /\ exists (blk : v1beta1.Ingress * v1beta1.IngressTLS) (sec : dag.Secret),
      In blk (processor.tls_blocks src) /\ In h (v1beta1.Hosts blk.2)
      /\ dag.LookupSecret src (processor.secret_name blk.1 blk.2) dag.validSecret = inl sec
      /\ dag.DelegationPermitted src (processor.secret_name blk.1 blk.2) (v1beta1.Namespace blk.1) = true
      /\ e.1.2 = Some sec
      /\ e.2 = min_tls blk.1.

End Entries.
End graph.

(** ** The rules, paths and TLS blocks of an ingress, read off the object

    What an ingress of the snapshot declares, stated on the fields of the
    object and not through the loops of the processor. *)
Module rules.
Import gostrings.
Section Declared.
Context `{dag.Collaborators}.

(** The rule that stands for a default backend: no host, and a single path
    without a path string that points at the backend. *)
Definition default_rule (be : v1beta1.IngressBackend) : v1beta1.IngressRule :=
  {| v1beta1.Host := "";
     v1beta1.HTTP := Some
       {| v1beta1.Paths := [{| v1beta1.Path := ""; v1beta1.Backend := be |}] |} |}.

(** [rule] is a rule of [ing]: one of the rules of its spec, or the rule
    that stands for its default backend. *)
Definition rule_of (ing : v1beta1.Ingress) (rule : v1beta1.IngressRule) : Prop :=
  In rule (v1beta1.Rules (v1beta1.Spec ing))
  \/ exists be, v1beta1.spec_Backend (v1beta1.Spec ing) = Some be /\ rule = default_rule be.

(** [httppath] is a path of the HTTP value of [rule]. *)
Definition path_of (rule : v1beta1.IngressRule) (httppath : v1beta1.HTTPIngressPath)
  : Prop :=
  exists http, v1beta1.HTTP rule = Some http /\ In httppath (v1beta1.Paths http).

(** The host a rule is filed under: "*" for a rule without a host. *)
Definition host_of (rule : v1beta1.IngressRule) : string :=
  if String.eqb (v1beta1.Host rule) "" then "*" else v1beta1.Host rule.

(** The path a route is built with: "/" for a path without a path string. *)
Definition path_string (httppath : v1beta1.HTTPIngressPath) : string :=
  if String.eqb (v1beta1.Path httppath) "" then "/" else v1beta1.Path httppath.

(** The backend of [httppath] resolves to the Service [s] in the namespace
    of [ing]. *)
Definition resolves (src : dag.KubernetesCache) (ing : v1beta1.Ingress)
    (httppath : v1beta1.HTTPIngressPath) (s : dag.Service) : Prop :=
  dag.LookupService src
    {| types.Name := v1beta1.ServiceName (v1beta1.Backend httppath);
       types.Namespace := v1beta1.Namespace ing |}
    (v1beta1.ServicePort (v1beta1.Backend httppath)) = inl s.

(** [r] is the route of a path of a rule of [ing]: the rule is one of
    [rule_of ing], [httppath] one of its paths and [s] the Service its
    backend resolves to. *)
Definition route_of (src : dag.KubernetesCache) (ing : v1beta1.Ingress)
    (rule : v1beta1.IngressRule) (httppath : v1beta1.HTTPIngressPath) (s : dag.Service)
    (r : dag.Route) : Prop :=
  In ing (dag.ingresses src)
  /\ rule_of ing rule
  /\ path_of rule httppath
  /\ resolves src ing httppath s
  /\ r = dag.route ing (path_string httppath) s.

(** The ingress [ing] of the snapshot declares the route [r] for the host
    [h]: [r] is the route of a path, with a Service that resolves, of a rule
    of [ing] whose host holds no wildcard character and is filed under
    [h]. *)
Definition declared (src : dag.KubernetesCache) (ing : v1beta1.Ingress) (h : string)
    (r : dag.Route) : Prop :=
  exists (rule : v1beta1.IngressRule) (httppath : v1beta1.HTTPIngressPath)
         (s : dag.Service),
    route_of src ing rule httppath s r
    /\ Contains (v1beta1.Host rule) "*" = false
    /\ h = host_of rule.

(** Some TLS block of an ingress of the snapshot lists [h], its secret is
    looked up and validated without an error, and delegation of that secret
    into the namespace of the ingress is permitted. *)
Definition tls_listed (src : dag.KubernetesCache) (h : string) : Prop :=
  exists (ing : v1beta1.Ingress) (tls : v1beta1.IngressTLS) (sec : dag.Secret),
    In ing (dag.ingresses src)
    /\ In tls (v1beta1.TLS (v1beta1.Spec ing))
    /\ In h (v1beta1.Hosts tls)
    /\ dag.LookupSecret src
         (dag.NamespacedNameFrom (v1beta1.SecretName tls) (v1beta1.Namespace ing))
         dag.validSecret = inl sec
    /\ dag.DelegationPermitted src
         (dag.NamespacedNameFrom (v1beta1.SecretName tls) (v1beta1.Namespace ing))
         (v1beta1.Namespace ing) = true.

(** Of the routes in [evs], those for [host] whose ingress satisfies
    [sel], each with the ingress it was built for. *)
Definition attachments (sel : v1beta1.Ingress -> bool) (host : string)
    (evs : list (v1beta1.Ingress * string * dag.Route))
  : list (v1beta1.Ingress * dag.Route) :=
  flat_map (fun ev => if sel ev.1.1 && String.eqb ev.1.2 host then [(ev.1.1, ev.2)] else [])
           evs.

End Declared.
End rules.

(** ** A snapshot with two certificates for one host *)
Module overrides.
Import gostrings.

(** Collaborators as [fixtures.stock], except that the annotation for the
    minimum TLS version is read: "1.3" is version 4, "1.2" is version 3,
    anything else is version 2. *)
Definition versioned : dag.Collaborators :=
  {| dag.TimeoutPolicy := unit;
     dag.RetryPolicy := unit;
     dag.Secret := string;
     dag.error := string;
     dag.TLSRequired := fun ing =>
       bool_decide (v1beta1.Annotations ing !! "ingress.kubernetes.io/force-ssl-redirect"
                    = Some "true");
     dag.HTTPAllowed := fun ing =>
       negb (bool_decide (v1beta1.Annotations ing !! "kubernetes.io/ingress.allow-http"
                          = Some "false"));
     dag.WebsocketRoutes := fun _ => ∅;
     dag.MinTLSVersion := fun raw =>
       if String.eqb raw "1.3" then 4 else if String.eqb raw "1.2" then 3 else 2;
     dag.CompatAnnotation := fun ing key => default "" (v1beta1.Annotations ing !! key);
     dag.ingressTimeoutPolicy := fun _ => tt;
     dag.ingressRetryPolicy := fun _ => tt;
     dag.validSecret := fun _ => None;
     dag.NamespacedNameFrom := fun name ns =>
       {| types.Namespace := ns; types.Name := name |} |}.

#[local] Existing Instance versioned.

(** A snapshot with the ingresses [ings] and the secrets default/old-cert
    and default/new-cert; no Service, every delegation is permitted. *)
Definition vault (ings : list v1beta1.Ingress) : dag.KubernetesCache :=
  {| dag.ingresses := ings;
     dag.LookupSecret := fun m _ =>
       if String.eqb (types.Name m) "old-cert" then inl "old certificate"
       else if String.eqb (types.Name m) "new-cert" then inl "new certificate"
       else inr "secret not found";
     dag.LookupService := fun _ _ => inr "service not found";
     dag.DelegationPermitted := fun _ _ => true |}.

Definition old_block : v1beta1.IngressTLS :=
  {| v1beta1.Hosts := ["shop.example.com"]; v1beta1.SecretName := "old-cert" |}.

Definition new_block : v1beta1.IngressTLS :=
  {| v1beta1.Hosts := ["blog.example.com"; "shop.example.com"];
     v1beta1.SecretName := "new-cert" |}.

Definition lost_block : v1beta1.IngressTLS :=
  {| v1beta1.Hosts := ["shop.example.com"]; v1beta1.SecretName := "missing" |}.

Definition other_block : v1beta1.IngressTLS :=
  {| v1beta1.Hosts := ["wiki.example.com"]; v1beta1.SecretName := "old-cert" |}.

(** An ingress that asks for TLS 1.2 and lists shop.example.com with the
    old certificate. *)
Definition older : v1beta1.Ingress :=
  {| v1beta1.Name := "older"; v1beta1.Namespace := "default";
     v1beta1.Annotations := {[ "tls-minimum-protocol-version" := "1.2" ]};
     v1beta1.Spec :=
       {| v1beta1.spec_Backend := None; v1beta1.TLS := [old_block];
          v1beta1.Rules := [] |} |}.

(** An ingress that asks for TLS 1.3 and lists shop.example.com twice, with
    the new certificate and then with a secret that is missing, and
    wiki.example.com with the old certificate. *)
Definition newer : v1beta1.Ingress :=
  {| v1beta1.Name := "newer"; v1beta1.Namespace := "default";
     v1beta1.Annotations := {[ "tls-minimum-protocol-version" := "1.3" ]};
     v1beta1.Spec :=
       {| v1beta1.spec_Backend := None;
          v1beta1.TLS := [new_block; lost_block; other_block];
          v1beta1.Rules := [] |} |}.

End overrides.

(** * Strings and digests *)
Section StringFacts.
Import gostrings.

(** The digests on the test vectors of FIPS 180, and the formatting of
    numbers and durations on a few values. *)
Example Sum256_abc :
  hex (sha256.Sum256 (bytes "abc"))
  = "ba7816bf8f01cfea414140de5dae2223b00361a396177a9cb410ff61f20015ad".
Proof. vm_compute. reflexivity. Qed.

Example Sum256_two_blocks :
  hex (sha256.Sum256 (bytes "abcdbcdecdefdefgefghfghighijhijkijkljklmklmnlmnomnopnopq"))
  = "248d6a61d20638b8e5c026930c3e6039a33ce45964ff2167f6ecedd419db06c1".
Proof. vm_compute. reflexivity. Qed.

Example Sum_abc :
  hex (sha1.Sum (bytes "abc")) = "a9993e364706816aba3e25717850c26c9cd0d89d".
Proof. vm_compute. reflexivity. Qed.

Example Sum_two_blocks :
  hex (sha1.Sum (bytes "abcdbcdecdefdefgefghfghighijhijkijkljklmklmnlmnomnopnopq"))
  = "84983e441c3bd26ebaae4aa1f95129e5e54670f1".
Proof. vm_compute. reflexivity. Qed.

Example Itoa_values :
  Itoa 80 = "80" /\ Itoa 0 = "0" /\ Itoa (-2147483648) = "-2147483648".
Proof. repeat split; vm_compute; reflexivity. Qed.

Example Duration_String_values :
  gotime.Duration_String 1000000000 = "1s"
  /\ gotime.Duration_String 3661000000000 = "1h1m1s"
  /\ gotime.Duration_String 60000000000 = "1m0s"
  /\ gotime.Duration_String 1500000000 = "1.5s"
  /\ gotime.Duration_String 1500000 = "1.5ms"
  /\ gotime.Duration_String 0 = "0s"
  /\ gotime.Duration_String (- 2 ^ 63) = "-2562047h47m16.854775808s".
Proof. repeat split; vm_compute; reflexivity. Qed.

Lemma len_nonneg (s : string) : 0 <= len s.
Proof. unfold len. lia. Qed.

Lemma length_app_string (s t : string) :
  String.length (s ++ t) = (String.length s + String.length t)%nat.
Proof. induction s as [|c s IH]; simpl; [reflexivity|]. now rewrite IH. Qed.

Lemma len_app (s t : string) : len (s ++ t) = len s + len t.
Proof. unfold len. rewrite length_app_string. lia. Qed.

Lemma length_substring_0 (n : nat) (s : string) :
  String.length (substring 0 n s) = Nat.min n (String.length s).
Proof.
  revert s. induction n as [|n IH]; intros [|c s]; simpl; auto.
Qed.

Lemma len_substring_0 (n : Z) (s : string) :
  0 <= n <= len s -> len (substring 0 (Z.to_nat n) s) = n.
Proof.
  unfold len. intros Hn. rewrite length_substring_0. lia.
Qed.

Lemma slice_to_Some (s : string) (n : Z) :
  0 <= n <= len s -> slice_to s n = Some (substring 0 (Z.to_nat n) s).
Proof.
  intros [H0 H1]. unfold slice_to.
  destruct (Z.leb_spec 0 n); [|lia]. destruct (Z.leb_spec n (len s)); [|lia].
  reflexivity.
Qed.

Lemma slice_to_None (s : string) (n : Z) : n < 0 -> slice_to s n = None.
Proof.
  intros Hn. unfold slice_to. destruct (Z.leb_spec 0 n); [lia|]. reflexivity.
Qed.

(** Two strings with the same tail of the same length are equal. *)
Lemma app_inv_tail_len (p1 p2 t1 t2 : string) :
  (p1 ++ t1)%string = (p2 ++ t2)%string -> String.length t1 = String.length t2 ->
  p1 = p2 /\ t1 = t2.
Proof.
  revert p2. induction p1 as [|c p1 IH]; intros [|d p2] Heq Hlen; simpl in *.
  - auto.
  - exfalso. apply (f_equal String.length) in Heq.
    simpl in Heq. rewrite ?length_app_string in Heq. simpl in Heq. lia.
  - exfalso. apply (f_equal String.length) in Heq.
    simpl in Heq. rewrite ?length_app_string in Heq. simpl in Heq. lia.
  - injection Heq as -> Heq. destruct (IH _ Heq Hlen) as [-> ->]. auto.
Qed.

Lemma len_hex (b : list Z) : len (hex b) = 2 * Z.of_nat (length b).
Proof.
  unfold len. induction b as [|x b IH]; simpl length; [reflexivity|].
  simpl String.length. lia.
Qed.

Lemma length_Sum256 (data : list Z) : length (sha256.Sum256 data) = 32%nat.
Proof.
  unfold sha256.Sum256.
  destruct (fold_left sha256.compress _ _) as [[[[[[[a b] c] d] e] f] g] h].
  reflexivity.
Qed.

Lemma length_Sum (data : list Z) : length (sha1.Sum data) = 20%nat.
Proof.
  unfold sha1.Sum.
  destruct (fold_left sha1.compress _ _) as [[[[a b] c] d] e].
  reflexivity.
Qed.

Lemma len_hash_of (s : list string) : len (naming.hash_of s) = 64.
Proof. unfold naming.hash_of. rewrite len_hex, length_Sum256. reflexivity. Qed.

Lemma len_short_of (s : list string) : len (naming.short_of s) = 6.
Proof.
  unfold naming.short_of. apply (len_substring_0 6). rewrite len_hash_of. lia.
Qed.

End StringFacts.

(** * Hashname and truncate *)
Section HashnameFacts.
Import gostrings envoy naming.

Lemma min_l_r (a b : Z) : min a b = Z.min a b.
Proof. unfold min. destruct (Z.gtb_spec a b); lia. Qed.

(** With a budget that is not negative [truncate] does not panic. *)
Lemma truncate_truncated (l : Z) (seg suffix : string) :
  0 <= l -> truncate l seg suffix = Some (truncated l suffix seg).
Proof.
  intros Hl. unfold truncate, truncated.
  pose proof (len_nonneg seg) as Hseg. pose proof (len_nonneg suffix) as Hsuf.
  destruct (Z.geb_spec l (len seg)) as [Hge|Hlt];
    destruct (Z.leb_spec (len seg) l) as [Hle|Hgt]; try lia; [reflexivity|].
  destruct (Z.leb_spec l (len suffix)) as [Hshort|Hlong].
  - rewrite min_l_r, Z.min_l by lia. now apply slice_to_Some.
  - rewrite slice_to_Some by lia. reflexivity.
Qed.

Lemma len_truncated (budget : Z) (short seg : string) :
  0 <= budget -> len (truncated budget short seg) = Z.min (len seg) budget.
Proof.
  intros Hb. unfold truncated.
  pose proof (len_nonneg seg) as Hseg. pose proof (len_nonneg short) as Hsuf.
  destruct (Z.leb_spec (len seg) budget) as [Hle|Hgt]; [lia|].
  destruct (Z.leb_spec budget (len short)) as [Hshort|Hlong].
  - rewrite len_substring_0 by lia. lia.
  - rewrite !len_app, len_substring_0 by lia. change (len "-") with 1. lia.
Qed.

(** A segment keeps its contents exactly when it fits the budget. *)
Lemma truncated_id_iff (budget : Z) (short seg : string) :
  0 <= budget -> truncated budget short seg = seg <-> len seg <= budget.
Proof.
  intros Hb. split.
  - intros Heq. apply (f_equal len) in Heq. rewrite len_truncated in Heq by lia. lia.
  - intros Hle. unfold truncated. destruct (Z.leb_spec (len seg) budget); [reflexivity|lia].
Qed.

Lemma truncated_from_length (budget : Z) (short : string) (c : nat) (s : list string) :
  length (truncated_from budget short c s) = length s.
Proof.
  unfold truncated_from.
  rewrite length_app, length_map, length_take, length_drop. lia.
Qed.

Lemma truncated_from_all (budget : Z) (short : string) (s : list string) :
  truncated_from budget short (length s) s = s.
Proof.
  unfold truncated_from. rewrite firstn_all, drop_all. simpl. apply app_nil_r.
Qed.

Lemma truncated_from_lookup_below (budget : Z) (short : string) (c n : nat)
    (s : list string) :
  (n < c)%nat -> (c <= length s)%nat ->
  truncated_from budget short c s !! n = s !! n.
Proof.
  intros Hn Hc. unfold truncated_from.
  rewrite lookup_app_l by (rewrite length_take; lia).
  now rewrite lookup_take_lt.
Qed.

Lemma truncated_from_fits (budget : Z) (short : string) (c : nat) (s : list string) :
  0 <= budget -> Forall (fun seg => len seg <= budget) s ->
  truncated_from budget short c s = s.
Proof.
  intros Hb Hall. unfold truncated_from.
  transitivity (take c s ++ drop c s)%list; [|apply take_drop].
  f_equal.
  assert (Hdrop : Forall (fun seg => len seg <= budget) (drop c s))
    by (apply Forall_drop; exact Hall).
  induction Hdrop as [|seg rest Hseg _ IH]; [reflexivity|].
  simpl. rewrite IH. f_equal. now apply truncated_id_iff.
Qed.

(** One assignment [s[n] = truncate(..)] of the loop. *)
Lemma truncated_from_step (budget : Z) (short : string) (n : nat) (s : list string)
    (sn : string) :
  s !! n = Some sn ->
  <[n := truncated budget short sn]> (truncated_from budget short (S n) s)
  = truncated_from budget short n s.
Proof.
  intros Hsn. unfold truncated_from.
  pose proof (lookup_lt_Some _ _ _ Hsn) as Hlt.
  rewrite (take_S_r _ _ _ Hsn), (drop_S _ _ _ Hsn). simpl.
  rewrite <- app_assoc. simpl.
  rewrite insert_app_r_alt by (rewrite length_take; lia).
  rewrite length_take, Nat.min_l, Nat.sub_diag by lia. reflexivity.
Qed.

Section Call.
Variables (l : Z) (s : list string).
Hypothesis Hl : 0 <= l.

Let hash := hash_of s.
Let state (c : nat) := truncated_from (budget_of l s) (short_of s) c s.

Lemma slice_hash_short : slice_to hash shorthash = Some (short_of s).
Proof.
  unfold shorthash. rewrite slice_to_Some; [reflexivity|].
  unfold hash. rewrite len_hash_of. lia.
Qed.

Lemma budget_nonneg : 0 <= budget_of l s.
Proof.
  unfold budget_of. destruct (length s) as [|n].
  - rewrite Z.quot_0_r_ext by reflexivity. lia.
  - apply Z.quot_pos; lia.
Qed.

(** One round of the loop, on the state the earlier rounds leave. *)
Lemma Hashname_loop_step (n : nat) :
  (S n <= length s)%nat ->
  Hashname_loop l hash (S n) (state (S n))
  = if l >? len (candidate l s n) then (state n, Some (candidate l s n))
    else Hashname_loop l hash n (state n).
Proof.
  intros Hn. simpl. unfold state at 1.
  rewrite truncated_from_lookup_below by lia.
  destruct (lookup_lt_is_Some_2 s n ltac:(lia)) as [sn Hsn].
  rewrite Hsn, slice_hash_short. unfold state.
  rewrite truncated_from_length.
  fold (budget_of l s).
  rewrite truncate_truncated by apply budget_nonneg.
  rewrite (truncated_from_step _ _ _ _ _ Hsn). reflexivity.
Qed.

(** What the loop returns and what it leaves in the slice: it stops at
    the first index, from the end, where the joined string is strictly
    shorter than [l], and falls back to the hash when there is none. *)
Lemma Hashname_loop_result (k : nat) :
  (k <= length s)%nat ->
  exists c : nat,
    (c <= k)%nat /\
    fst (Hashname_loop l hash k (state k)) = state c /\
    ((c < k)%nat /\ len (candidate l s c) < l /\
     snd (Hashname_loop l hash k (state k)) = Some (candidate l s c) /\
     (forall c', (c < c' < k)%nat -> l <= len (candidate l s c'))
     \/
     c = 0%nat /\
     snd (Hashname_loop l hash k (state k))
     = Some (substring 0 (Z.to_nat (Z.min 64 l)) hash) /\
     (forall c', (c' < k)%nat -> l <= len (candidate l s c'))).
Proof.
  induction k as [|n IH]; intros Hk.
  - exists 0%nat. split; [lia|]. split; [reflexivity|]. right.
    split; [reflexivity|]. split; [|intros; lia].
    simpl. rewrite min_l_r. unfold hash at 2. rewrite len_hash_of.
    rewrite slice_to_Some; [reflexivity|].
    unfold hash. rewrite len_hash_of. lia.
  - rewrite Hashname_loop_step by lia.
    destruct (Z.gtb_spec l (len (candidate l s n))) as [Hret|Hcont].
    + exists n. split; [lia|]. split; [reflexivity|]. left.
      split; [lia|]. split; [lia|]. split; [reflexivity|]. intros c' Hc'. lia.
    + destruct (IH ltac:(lia)) as (c & Hc & Hfst & Hcases).
      exists c. split; [lia|]. split; [exact Hfst|].
      destruct Hcases as [(Hlt & Hlen & Hsnd & Hall)|(Hc0 & Hsnd & Hall)].
      * left. split; [lia|]. split; [lia|]. split; [exact Hsnd|].
        intros c' Hc'. destruct (decide (c' = n)) as [->|Hne]; [lia|].
        apply Hall. lia.
      * right. split; [exact Hc0|]. split; [exact Hsnd|].
        intros c' Hc'. destruct (decide (c' = n)) as [->|Hne]; [lia|].
        apply Hall. lia.
Qed.

(** The slow path of [Hashname] is the loop on the whole slice. *)
Lemma Hashname_slow :
  l <= len (Join s "/") ->
  Hashname l s = Hashname_loop l hash (length s) (state (length s)).
Proof.
  intros Hover. unfold Hashname, state.
  destruct (Z.gtb_spec l (len (Join s "/"))); [lia|].
  now rewrite truncated_from_all.
Qed.

Lemma Hashname_fast :
  len (Join s "/") < l -> Hashname l s = (s, Some (Join s "/")).
Proof.
  intros Hunder. unfold Hashname.
  destruct (Z.gtb_spec l (len (Join s "/"))); [reflexivity|lia].
Qed.

(** [Hashname] returns, and what it returns is not longer than [l]. *)
Lemma Hashname_returns_bounded :
  exists r, snd (Hashname l s) = Some r /\ len r <= l.
Proof.
  destruct (Z.lt_ge_cases (len (Join s "/")) l) as [Hunder|Hover].
  - rewrite Hashname_fast by assumption. exists (Join s "/"). simpl. split; [auto|lia].
  - rewrite Hashname_slow by assumption.
    destruct (Hashname_loop_result (length s) ltac:(lia))
      as (c & _ & _ & [(_ & Hlen & Hsnd & _)|(_ & Hsnd & _)]).
    + exists (candidate l s c). split; [exact Hsnd|lia].
    + eexists. split; [exact Hsnd|].
      rewrite len_substring_0; [lia|]. unfold hash. rewrite len_hash_of. lia.
Qed.

End Call.

End HashnameFacts.

(** * The claims about Hashname *)
Section HashnameClaims.
Import gostrings envoy naming.

(** C2. The joined string of the single segment "abc" has length 3, the
    bound itself; the documentation of Hashname truncates only when the
    combined length exceeds the bound, so "abc" is expected back. The code
    tests [l > len(r)], takes the slow path, finds nothing to truncate and
    returns the first three characters of the SHA-256 digest. *)
Theorem Hashname_at_the_bound :
  len (Join ["abc"] "/") = 3 /\ Hashname 3 ["abc"] = (["abc"], Some "ba7").
Proof. split; vm_compute; reflexivity. Qed.

(** C5, as stated, fails. First sentence: with bound 12 and two segments
    the budget is 6, which is not smaller than the length of the suffix,
    and still the segment "bbbbbbbbbb" becomes the bare suffix, in
    [truncate] and so in the slice that [Hashname] leaves. Second
    sentence: with bound 7, once the last segment of "abc", "defgh" is
    truncated the joined string has length 7 and meets the bound, and
    still the loop goes on and the hash is returned instead. *)
Lemma Hashname_suffix_only_counterexample :
  (~ budget_of 12 ["aaaaaaaaaa"; "bbbbbbbbbb"] < shorthash
   /\ budget_of 12 ["aaaaaaaaaa"; "bbbbbbbbbb"] < len "bbbbbbbbbb"
   /\ truncate (budget_of 12 ["aaaaaaaaaa"; "bbbbbbbbbb"]) "bbbbbbbbbb"
               (short_of ["aaaaaaaaaa"; "bbbbbbbbbb"])
      = Some (short_of ["aaaaaaaaaa"; "bbbbbbbbbb"])
   /\ fst (Hashname 12 ["aaaaaaaaaa"; "bbbbbbbbbb"])
      = [short_of ["aaaaaaaaaa"; "bbbbbbbbbb"]; short_of ["aaaaaaaaaa"; "bbbbbbbbbb"]])
  /\ (len (candidate 7 ["abc"; "defgh"] 1) <= 7
      /\ snd (Hashname 7 ["abc"; "defgh"]) <> Some (candidate 7 ["abc"; "defgh"] 1)).
Proof.
  split.
  - split; [vm_compute; discriminate|].
    split; [vm_compute; reflexivity|].
    split; vm_compute; reflexivity.
  - split; vm_compute; discriminate.
Qed.

(** C5, amended. For a bound [l] that is not negative and a joined string
    longer than [l]: one hash of the joined string is computed, and its
    first six characters are the suffix; every assignment of the loop
    stores [truncated budget short seg], that is the segment itself when
    it is not longer than the budget [l / len(s)], the first [budget]
    characters of the suffix when the budget is at most the length of the
    suffix, and otherwise the first [budget - 7] characters, a dash and
    the suffix; the segments are overwritten from the last one down, and
    the call returns the joined string at the first index [c], from the
    end, where it is strictly shorter than [l], provided it was strictly
    longer than [l] at every index after [c]; when it is strictly longer
    than [l] at every index, the call returns the first [min 64 l]
    characters of the hash. *)
Theorem Hashname_truncates_from_the_end (l : Z) (s : list string) :
  0 <= l -> l < len (Join s "/") ->
  len (short_of s) = shorthash
  /\ (forall seg,
        truncate (budget_of l s) seg (short_of s)
        = Some (truncated (budget_of l s) (short_of s) seg))
  /\ (forall c : nat,
        (c < length s)%nat ->
        len (candidate l s c) < l ->
        (forall c', (c < c' < length s)%nat -> l < len (candidate l s c')) ->
        Hashname l s
        = (truncated_from (budget_of l s) (short_of s) c s, Some (candidate l s c)))
  /\ ((forall c', (c' < length s)%nat -> l < len (candidate l s c')) ->
      snd (Hashname l s) = Some (substring 0 (Z.to_nat (Z.min 64 l)) (hash_of s))).
Proof.
  intros Hl Hover.
  split; [apply len_short_of|].
  split; [intros seg; apply truncate_truncated, budget_nonneg; assumption|].
  rewrite Hashname_slow by lia.
  destruct (Hashname_loop_result l s Hl (length s) ltac:(lia))
    as (c0 & Hc0 & Hfst & Hcases).
  split.
  - intros c Hc Hlen Hafter.
    destruct Hcases as [(Hlt & Hlen0 & Hsnd & Hall)|(Hzero & Hsnd & Hall)].
    + assert (c0 = c) as ->.
      { destruct (Nat.lt_trichotomy c0 c) as [Hlt'|[Heq|Hgt]]; [|exact Heq|].
        - specialize (Hall c ltac:(lia)). lia.
        - specialize (Hafter c0 ltac:(lia)). lia. }
      rewrite (surjective_pairing (Hashname_loop _ _ _ _)), Hfst, Hsnd. reflexivity.
    + specialize (Hall c Hc). lia.
  - intros Hnone.
    destruct Hcases as [(Hlt & Hlen0 & Hsnd & Hall)|(Hzero & Hsnd & Hall)].
    + specialize (Hnone c0 Hlt). lia.
    + exact Hsnd.
Qed.

(** The amended C5 at bound 60 on a long service name: the last two
    segments fit the budget of 15, the second is cut to 8 characters, a
    dash and the suffix, and the loop stops there. *)
Lemma Hashname_truncates_from_the_end_witness :
  (0 <= 60 /\ 60 < len (Join ["default"; "echo-service-with-a-very-long-name-that-goes-on-and-on-and-on-for-ever"; "80"; "a1b2c3"] "/"))
  /\ snd (Hashname 60 ["default"; "echo-service-with-a-very-long-name-that-goes-on-and-on-and-on-for-ever"; "80"; "a1b2c3"])
     = Some (candidate 60 ["default"; "echo-service-with-a-very-long-name-that-goes-on-and-on-and-on-for-ever"; "80"; "a1b2c3"] 1).
Proof.
  assert (H0 : 0 <= 60) by lia.
  assert (H1 : 60 < len (Join ["default"; "echo-service-with-a-very-long-name-that-goes-on-and-on-and-on-for-ever"; "80"; "a1b2c3"] "/"))
    by (vm_compute; reflexivity).
  split; [split; assumption|].
  destruct (Hashname_truncates_from_the_end _ _ H0 H1) as (_ & _ & Hstop & _).
  rewrite (Hstop 1%nat).
  - reflexivity.
  - simpl; lia.
  - vm_compute; reflexivity.
  - intros c' Hc'. simpl in Hc'.
    assert (c' = 2%nat \/ c' = 3%nat) as [-> | ->] by lia; vm_compute; reflexivity.
Defined.

(** C10, as stated, fails: the joined string "ab/cd" is not strictly
    below the bound 4, and the caller's slice holds the same contents
    after the call, because both segments fit the budget of 2. *)
Lemma Hashname_slice_kept_counterexample :
  ~ (len (Join ["ab"; "cd"] "/") < 4)
  /\ fst (Hashname 4 ["ab"; "cd"]) = ["ab"; "cd"].
Proof. split; [vm_compute; discriminate|vm_compute; reflexivity]. Qed.

(** C10, amended. For a bound [l] that is not negative: in the fast path
    (joined string strictly shorter than [l]) the slice is left as it
    was; otherwise the elements from some index [c] on, which includes
    the last element of a slice that is not empty, are overwritten in
    place with their truncation and the others are untouched; an
    overwritten element keeps its contents exactly when it is not longer
    than the budget [l / len(s)], so the caller sees different contents
    only outside the fast path and only when some segment is longer than
    the budget. *)
Theorem Hashname_slice_effect (l : Z) (s : list string) :
  0 <= l ->
  (len (Join s "/") < l -> fst (Hashname l s) = s)
  /\ (l <= len (Join s "/") ->
      exists c : nat,
        (c <= length s)%nat /\ (s <> [] -> (c < length s)%nat)
        /\ fst (Hashname l s) = truncated_from (budget_of l s) (short_of s) c s)
  /\ (forall seg,
        truncated (budget_of l s) (short_of s) seg = seg <-> len seg <= budget_of l s)
  /\ (fst (Hashname l s) <> s ->
      l <= len (Join s "/") /\ exists seg, seg ∈ s /\ budget_of l s < len seg).
Proof.
  intros Hl.
  assert (Hslow : l <= len (Join s "/") ->
            exists c : nat,
              (c <= length s)%nat /\ (s <> [] -> (c < length s)%nat)
              /\ fst (Hashname l s) = truncated_from (budget_of l s) (short_of s) c s).
  { intros Hover. rewrite Hashname_slow by assumption.
    destruct (Hashname_loop_result l s Hl (length s) ltac:(lia))
      as (c & Hc & Hfst & Hcases).
    exists c. split; [exact Hc|]. split; [|exact Hfst].
    intros Hne. destruct Hcases as [(Hlt & _)|(-> & _)]; [exact Hlt|].
    destruct s; [congruence|simpl; lia]. }
  split; [intros Hunder; now rewrite Hashname_fast|].
  split; [exact Hslow|].
  split; [intros seg; apply truncated_id_iff, budget_nonneg; assumption|].
  intros Hchanged.
  destruct (Z.lt_ge_cases (len (Join s "/")) l) as [Hunder|Hover].
  { exfalso. apply Hchanged. now rewrite Hashname_fast. }
  split; [exact Hover|].
  destruct (Hslow Hover) as (c & _ & _ & Hfst).
  destruct (decide (Forall (fun seg => len seg <= budget_of l s) s)) as [Hall|Hsome].
  - exfalso. apply Hchanged. rewrite Hfst.
    apply truncated_from_fits; [apply budget_nonneg; assumption|exact Hall].
  - apply not_Forall_Exists in Hsome; [|intros seg; apply Z.le_dec].
    apply Exists_exists in Hsome. destruct Hsome as (seg & Hin & Hlong).
    exists seg. split; [exact Hin|]. simpl in Hlong. lia.
Qed.

(** The amended C10 at bound 7 on "abc", "defgh": the call is outside the
    fast path and overwrites the last element. *)
Lemma Hashname_slice_effect_witness :
  0 <= 7
  /\ fst (Hashname 7 ["abc"; "defgh"]) <> ["abc"; "defgh"]
  /\ exists seg, seg ∈ ["abc"; "defgh"] /\ budget_of 7 ["abc"; "defgh"] < len seg.
Proof.
  assert (H0 : 0 <= 7) by lia.
  split; [exact H0|].
  assert (Hne : fst (Hashname 7 ["abc"; "defgh"]) <> ["abc"; "defgh"])
    by (vm_compute; discriminate).
  split; [exact Hne|].
  destruct (Hashname_slice_effect 7 ["abc"; "defgh"] H0) as (_ & _ & _ & Hchanged).
  exact (proj2 (Hchanged Hne)).
Defined.

End HashnameClaims.

(** * Durations and Clustername *)
Section DurationFacts.
Import gostrings gotime services.

Lemma wrap64_small (x : Z) : - 2 ^ 63 <= x < 2 ^ 63 -> wrap64 x = x.
Proof. intros Hx. unfold wrap64. rewrite Z.mod_small; lia. Qed.

Lemma seconds_digit (d : Z) (rest : string) (total cur : Z) :
  0 <= d < 10 ->
  seconds (String (digit d) rest) total cur = seconds rest total (10 * cur + d).
Proof.
  intros Hd.
  assert (d = 0 \/ d = 1 \/ d = 2 \/ d = 3 \/ d = 4 \/ d = 5 \/ d = 6 \/ d = 7
          \/ d = 8 \/ d = 9) as Hcases by lia.
  repeat (destruct Hcases as [->|Hcases]; [reflexivity|]). subst d. reflexivity.
Qed.

Lemma seconds_digits (fuel : nat) :
  forall (v : Z) (acc : string) (total : Z),
    0 <= v < 2 ^ Z.of_nat fuel ->
    seconds (digits fuel v acc) total 0 = seconds acc total v.
Proof.
  induction fuel as [|fuel IH]; intros v acc total Hv.
  - simpl in *. assert (v = 0) as -> by lia. reflexivity.
  - simpl digits. destruct (Z.gtb_spec v 0) as [Hpos|Hzero].
    + rewrite IH.
      * rewrite seconds_digit by (apply Z.mod_pos_bound; lia).
        f_equal. pose proof (Z.div_mod v 10). lia.
      * rewrite Nat2Z.inj_succ, Z.pow_succ_r in Hv by lia.
        split; [apply Z.div_pos; lia|].
        apply Z.div_lt_upper_bound; lia.
    + assert (v = 0) as -> by lia. reflexivity.
Qed.

Lemma seconds_fmtInt (v : Z) (acc : string) (total : Z) :
  0 <= v -> seconds (fmtInt v acc) total 0 = seconds acc total v.
Proof.
  intros Hv. unfold fmtInt. destruct (Z.eqb_spec v 0) as [->|Hne].
  - reflexivity.
  - apply seconds_digits. split; [lia|].
    rewrite Nat2Z.inj_succ, Z2Nat.id by apply Z.log2_nonneg.
    apply Z.log2_spec. lia.
Qed.

(** A whole number of units has no fraction to print. *)
Lemma fmtFrac_whole (prec : nat) :
  forall (v : Z) (acc : string),
    fmtFrac prec (v * 10 ^ Z.of_nat prec) false acc = (acc, v).
Proof.
  induction prec as [|prec IH]; intros v acc.
  - simpl. now rewrite Z.mul_1_r.
  - rewrite Nat2Z.inj_succ, Z.pow_succ_r by lia.
    cbn [fmtFrac].
    replace (v * (10 * 10 ^ Z.of_nat prec)) with ((v * 10 ^ Z.of_nat prec) * 10) by lia.
    rewrite Z.mod_mul, Z.div_mul by lia. simpl. apply IH.
Qed.

(** The seconds can be read back from the duration [Clustername] prints,
    as long as the product with [time.Second] does not wrap around. *)
Lemma Duration_String_seconds (x : Z) :
  0 < x -> x * Second < 2 ^ 63 ->
  seconds (Duration_String (mul (Duration x) Second)) 0 0 = x.
Proof.
  intros Hpos Hsmall. unfold Second in *.
  unfold mul, Duration. rewrite (wrap64_small x) by lia.
  rewrite wrap64_small by lia.
  unfold Duration_String. rewrite Z.abs_eq by lia.
  unfold Second. destruct (Z.ltb_spec (x * 1000000000) 1000000000) as [Hlt|_]; [lia|].
  change 1000000000 with (10 ^ Z.of_nat 9). rewrite fmtFrac_whole.
  destruct (Z.ltb_spec (x * 10 ^ Z.of_nat 9) 0) as [Hneg|_]; [lia|].
  pose proof (Z.div_mod x 60) as Hx.
  pose proof (Z.div_mod (x / 60) 60) as Hm.
  pose proof (Z.mod_pos_bound x 60) as Hxs.
  pose proof (Z.mod_pos_bound (x / 60) 60) as Hms.
  assert (0 <= x / 60) by (apply Z.div_pos; lia).
  assert (0 <= x / 60 / 60) by (apply Z.div_pos; lia).
  destruct (Z.gtb_spec (x / 60) 0) as [Hmin|Hnomin].
  - destruct (Z.gtb_spec (x / 60 / 60) 0) as [Hhour|Hnohour].
    + rewrite seconds_fmtInt by lia. cbn [seconds Ascii.eqb Bool.eqb].
      rewrite seconds_fmtInt by lia. cbn [seconds Ascii.eqb Bool.eqb].
      rewrite seconds_fmtInt by lia. cbn [seconds Ascii.eqb Bool.eqb]. lia.
    + rewrite seconds_fmtInt by lia. cbn [seconds Ascii.eqb Bool.eqb].
      rewrite seconds_fmtInt by lia. cbn [seconds Ascii.eqb Bool.eqb]. lia.
  - rewrite seconds_fmtInt by lia. cbn [seconds Ascii.eqb Bool.eqb]. lia.
Qed.

Lemma Duration_String_inj (x y : Z) :
  0 < x -> x * Second < 2 ^ 63 -> 0 < y -> y * Second < 2 ^ 63 ->
  Duration_String (mul (Duration x) Second) = Duration_String (mul (Duration y) Second) ->
  x = y.
Proof.
  intros Hx Hxs Hy Hys Heq.
  rewrite <- (Duration_String_seconds x), <- (Duration_String_seconds y) by assumption.
  now rewrite Heq.
Qed.

End DurationFacts.

Section ClusternameFacts.
Import gostrings gotime envoy naming services.

Lemma app_assoc_string (a b c : string) : ((a ++ b) ++ c = a ++ b ++ c)%string.
Proof.
  induction a as [|x a IH]; [reflexivity|].
  change (String x ((a ++ b) ++ c) = String x (a ++ b ++ c))%string. now rewrite IH.
Qed.

Lemma app_empty_r_string (a : string) : (a ++ "")%string = a.
Proof.
  induction a as [|x a IH]; [reflexivity|].
  change (String x (a ++ "") = String x a)%string. now rewrite IH.
Qed.

Lemma app_inv_head_string (a b c : string) : (a ++ b)%string = (a ++ c)%string -> b = c.
Proof.
  induction a as [|x a IH]; [auto|].
  change (String x (a ++ b) = String x (a ++ c) -> b = c)%string.
  intros Heq. injection Heq. exact IH.
Qed.

Lemma len_disambiguator (svc : dag.Service) : len (disambiguator svc) = 10.
Proof.
  unfold disambiguator. rewrite len_hex, length_firstn, length_Sum. reflexivity.
Qed.

(** The name of a cluster always ends with a slash and the ten
    hexadecimal digits of the disambiguator: with a bound of 60 and four
    segments the budget is 15, the last segment fits it, and the other
    three fit the bound once they are cut to 15. *)
Lemma Clustername_shape (svc : dag.Service) :
  exists head : string,
    Clustername svc = Some (head ++ "/" ++ disambiguator svc)%string.
Proof.
  unfold Clustername. fold (disambiguator svc).
  set (ns := dag.Namespace svc). set (name := dag.Name svc).
  set (port := Itoa (wrap64 (dag.Port svc))). set (d := disambiguator svc).
  set (s := [ns; name; port; d]).
  pose proof (len_disambiguator svc) as Hd. fold d in Hd.
  assert (Hbudget : budget_of 60 s = 15) by reflexivity.
  assert (Hfit : truncated (budget_of 60 s) (short_of s) d = d)
    by (apply truncated_id_iff; lia).
  destruct (Z.lt_ge_cases (len (Join s "/")) 60) as [Hunder|Hover].
  - rewrite Hashname_fast by assumption. simpl.
    exists (ns ++ "/" ++ name ++ "/" ++ port)%string.
    now rewrite !app_assoc_string.
  - rewrite Hashname_slow by lia.
    destruct (Hashname_loop_result 60 s ltac:(lia) (length s) ltac:(lia))
      as (c & Hc & _ & [(Hlt & _ & Hsnd & _)|(_ & _ & Hall)]).
    + rewrite Hsnd. unfold candidate.
      destruct c as [|[|[|[|c]]]]; [| | | |simpl in Hlt; lia];
        unfold truncated_from; simpl take; simpl drop; simpl map; rewrite Hfit;
        simpl Join; eexists; rewrite <- !app_assoc_string; reflexivity.
    + exfalso. specialize (Hall 0%nat ltac:(simpl; lia)).
      unfold candidate, truncated_from in Hall.
      simpl take in Hall. simpl drop in Hall. simpl map in Hall.
      simpl Join in Hall. rewrite !len_app, !len_truncated in Hall by lia.
      change (len "/") with 1 in Hall. lia.
Qed.

(** The string that is hashed, with each optional part written as a
    possibly empty string. *)
Lemma Clustername_buf_with_interval (svc : dag.Service) (hc : dag.HealthCheckPolicy)
    (i : Z) :
  0 < i ->
  exists before after : string,
    forall j : Z, 0 < j ->
      Clustername_buf (with_interval svc hc j)
      = (before ++ Duration_String (mul (Duration j) Second) ++ after)%string.
Proof.
  intros _.
  exists (dag.LoadBalancerStrategy svc ++
          (if dag.TimeoutSeconds hc >? 0
           then Duration_String (mul (Duration (dag.TimeoutSeconds hc)) Second)
           else ""))%string.
  exists ((if dag.UnhealthyThresholdCount hc >? 0
           then Itoa (wrap64 (dag.UnhealthyThresholdCount hc)) else "") ++
          (if dag.HealthyThresholdCount hc >? 0
           then Itoa (wrap64 (dag.HealthyThresholdCount hc)) else "") ++
          dag.Path hc)%string.
  intros j Hj. unfold Clustername_buf, with_interval. simpl.
  destruct (Z.gtb_spec j 0) as [_|Hle]; [|lia].
  destruct (dag.TimeoutSeconds hc >? 0), (dag.UnhealthyThresholdCount hc >? 0),
    (dag.HealthyThresholdCount hc >? 0);
    rewrite ?app_assoc_string, ?app_empty_r_string; reflexivity.
Qed.

End ClusternameFacts.

(** * The claim about Clustername *)
Section ClusternameClaims.
Import gostrings gotime envoy naming services.

(** C9, as stated, fails: two Services that agree on everything but the
    health-check interval, 371113 seconds for one and 2485877 seconds for
    the other, both positive, get the same cluster name, because the first
    five bytes of the SHA-1 digests of "103h5m13s" and "690h31m17s"
    coincide. *)
Lemma Clustername_interval_counterexample :
  371113 <> 0 /\ 2485877 <> 0 /\ 371113 <> 2485877
  /\ Clustername (with_interval echo no_policy 371113)
     = Clustername (with_interval echo no_policy 2485877).
Proof. repeat (split; [lia|]). vm_compute. reflexivity. Qed.

(** Outside the range of the amended claim the hashed strings themselves
    coincide: an interval that is not positive is skipped by the test
    [> 0], and the product with [time.Second] wraps around for an interval
    above [2^63 / 10^9]. *)
Example Clustername_buf_outside_range :
  Clustername_buf (with_interval echo no_policy (-1))
  = Clustername_buf (with_interval echo no_policy (-2))
  /\ Clustername_buf (with_interval echo no_policy 1)
     = Clustername_buf (with_interval echo no_policy (1 + 2 ^ 55)).
Proof. split; vm_compute; reflexivity. Qed.

(** C9, amended. For two Services that agree on namespace, name, port,
    strategy and health-check policy except for [IntervalSeconds], with
    both intervals positive, distinct and small enough for the product
    with [time.Second] not to wrap around, the strings that are hashed
    differ, and the cluster names differ whenever the five-byte SHA-1
    disambiguators of those strings differ. For two Services that agree
    on namespace, name, port and strategy and have no health check, the
    cluster names are identical. *)
Theorem Clustername_interval :
  (forall (svc : dag.Service) (hc : dag.HealthCheckPolicy) (i1 i2 : Z),
      0 < i1 -> i1 * Second < 2 ^ 63 ->
      0 < i2 -> i2 * Second < 2 ^ 63 ->
      i1 <> i2 ->
      Clustername_buf (with_interval svc hc i1) <> Clustername_buf (with_interval svc hc i2)
      /\ (disambiguator (with_interval svc hc i1) <> disambiguator (with_interval svc hc i2) ->
          Clustername (with_interval svc hc i1) <> Clustername (with_interval svc hc i2)))
  /\ (forall s1 s2 : dag.Service,
        dag.Namespace s1 = dag.Namespace s2 ->
        dag.Name s1 = dag.Name s2 ->
        dag.Port s1 = dag.Port s2 ->
        dag.LoadBalancerStrategy s1 = dag.LoadBalancerStrategy s2 ->
        dag.HealthCheck s1 = None -> dag.HealthCheck s2 = None ->
        Clustername s1 = Clustername s2).
Proof.
  split.
  - intros svc hc i1 i2 H1 H1s H2 H2s Hne. split.
    + destruct (Clustername_buf_with_interval svc hc i1 H1) as (before & after & Hbuf).
      rewrite (Hbuf i1 H1), (Hbuf i2 H2). intros Heq.
      apply app_inv_head_string in Heq.
      apply app_inv_tail_len in Heq; [|reflexivity].
      destruct Heq as [Heq _].
      apply Hne. now apply Duration_String_inj.
    + intros Hd.
      destruct (Clustername_shape (with_interval svc hc i1)) as (h1 & ->).
      destruct (Clustername_shape (with_interval svc hc i2)) as (h2 & ->).
      intros Heq. injection Heq as Heq.
      rewrite <- !app_assoc_string in Heq.
      apply app_inv_tail_len in Heq.
      * destruct Heq as [_ Heq]. exact (Hd Heq).
      * pose proof (len_disambiguator (with_interval svc hc i1)) as L1.
        pose proof (len_disambiguator (with_interval svc hc i2)) as L2.
        unfold len in *. lia.
  - intros s1 s2 Hns Hname Hport Hlb Hc1 Hc2.
    unfold Clustername, Clustername_buf. now rewrite Hns, Hname, Hport, Hlb, Hc1, Hc2.
Qed.

(** The amended C9 on the Service [echo]: with intervals of one and two
    seconds the disambiguators differ, and so do the names; without a
    health check a different protocol leaves the name as it is. *)
Lemma Clustername_interval_witness :
  (0 < 1 /\ 1 * Second < 2 ^ 63 /\ 0 < 2 /\ 2 * Second < 2 ^ 63 /\ 1 <> 2)
  /\ Clustername (with_interval echo no_policy 1)
     <> Clustername (with_interval echo no_policy 2)
  /\ Clustername echo
     = Clustername {| dag.Namespace := "default"; dag.Name := "echo"; dag.Port := 80;
                      dag.Protocol := "h2"; dag.LoadBalancerStrategy := "";
                      dag.HealthCheck := None |}.
Proof.
  assert (H1 : 0 < 1) by lia.
  assert (H1s : 1 * Second < 2 ^ 63) by (vm_compute; reflexivity).
  assert (H2 : 0 < 2) by lia.
  assert (H2s : 2 * Second < 2 ^ 63) by (vm_compute; reflexivity).
  assert (Hne : 1 <> 2) by lia.
  split; [repeat split; assumption|].
  destruct Clustername_interval as [Hdiffer Hsame].
  split.
  - apply (Hdiffer echo no_policy 1 2 H1 H1s H2 H2s Hne).
    vm_compute. discriminate.
  - apply Hsame; reflexivity.
Defined.

End ClusternameClaims.

(** * The Ingress processor *)
Section ProcessorFacts.
Import gostrings dag processor.
Context `{Collaborators}.

Lemma foldl_flat_map {A B C : Type} (f : A -> C -> A) (g : B -> list C) (l : list B) :
  forall a : A, foldl f a (flat_map g l) = foldl (fun a x => foldl f a (g x)) a l.
Proof.
  induction l as [|x l IH]; intros a; simpl; [reflexivity|].
  now rewrite foldl_app, IH.
Qed.

(** A fold whose steps keep the value of [proj] keeps it. *)
Lemma foldl_preserves {A B C : Type} (proj : A -> C) (f : A -> B -> A) (l : list B) :
  (forall a x, proj (f a x) = proj a) ->
  forall a, proj (foldl f a l) = proj a.
Proof.
  intros Hstep. induction l as [|x l IH]; intros a; simpl; [reflexivity|].
  now rewrite IH, Hstep.
Qed.

Lemma foldl_ext_with {A B C : Type} (proj : A -> C) (f g : C -> A -> B -> A) (l : list B) :
  (forall c a x, proj (f c a x) = proj a) ->
  (forall a x, f (proj a) a x = g (proj a) a x) ->
  forall a, foldl (f (proj a)) a l = foldl (g (proj a)) a l.
Proof.
  intros Hproj Hfg. induction l as [|x l IH]; intros a; simpl; [reflexivity|].
  rewrite <- Hfg. specialize (IH (f (proj a) a x)). rewrite Hproj in IH. exact IH.
Qed.

(** ** Phase B *)

Lemma Source_lookupVirtualHost (b : Builder) (host : string) :
  Source (lookupVirtualHost b host) = Source b.
Proof. unfold lookupVirtualHost. destruct (virtualhosts b !! host); reflexivity. Qed.

Lemma securevirtualhosts_lookupVirtualHost (b : Builder) (host : string) :
  securevirtualhosts (lookupVirtualHost b host) = securevirtualhosts b.
Proof. unfold lookupVirtualHost. destruct (virtualhosts b !! host); reflexivity. Qed.

Lemma Source_attach (b : Builder) (ev : v1beta1.Ingress * string * Route) :
  Source (attach b ev) = Source b.
Proof.
  destruct ev as [[ing host] r]. unfold attach.
  destruct (TLSRequired ing || HTTPAllowed ing);
    destruct (securevirtualhosts _ !! host);
    destruct (negb (String.eqb host "*")); simpl;
    rewrite ?Source_lookupVirtualHost; reflexivity.
Qed.

Lemma computeIngressRule_path_attach (ing : v1beta1.Ingress) (host : string)
    (b : Builder) (httppath : v1beta1.HTTPIngressPath) :
  computeIngressRule_path ing host b httppath
  = foldl attach b (path_routes (Source b) ing host httppath).
Proof.
  unfold computeIngressRule_path, path_routes, lookupService.
  destruct (LookupService _ _ _); reflexivity.
Qed.

Lemma foldl_attach_Source (evs : list (v1beta1.Ingress * string * Route)) (b : Builder) :
  Source (foldl attach b evs) = Source b.
Proof. apply (foldl_preserves Source). intros a x. apply Source_attach. Qed.

Lemma computeIngressRule_attach (ing : v1beta1.Ingress) (b : Builder)
    (rule : v1beta1.IngressRule) :
  computeIngressRule ing b rule = foldl attach b (rule_routes (Source b) ing rule).
Proof.
  unfold computeIngressRule, rule_routes.
  destruct (Contains (v1beta1.Host rule) "*"); [reflexivity|].
  rewrite foldl_flat_map.
  set (host := if String.eqb (v1beta1.Host rule) "" then "*" else v1beta1.Host rule).
  apply (foldl_ext_with Source
           (fun _ b hp => computeIngressRule_path ing host b hp)
           (fun src b hp => foldl attach b (path_routes src ing host hp))).
  - intros c a x. rewrite computeIngressRule_path_attach. apply foldl_attach_Source.
  - intros a x. apply computeIngressRule_path_attach.
Qed.

(** Phase B attaches the routes it builds, one after the other. *)
Lemma computeIngresses_attach (b : Builder) :
  computeIngresses b = foldl attach b (built (Source b)).
Proof.
  unfold computeIngresses, built. rewrite foldl_flat_map.
  generalize (ingresses (Source b)). intros ings.
  apply (foldl_ext_with Source
           (fun _ b ing => foldl (computeIngressRule ing) b (rulesFromSpec (v1beta1.Spec ing)))
           (fun src b ing =>
              foldl attach b (flat_map (rule_routes src ing)
                                       (rulesFromSpec (v1beta1.Spec ing))))).
  - intros c a ing. apply (foldl_preserves Source).
    intros a' rule. rewrite computeIngressRule_attach. apply foldl_attach_Source.
  - intros a ing. rewrite foldl_flat_map.
    apply (foldl_ext_with Source
             (fun _ b rule => computeIngressRule ing b rule)
             (fun src b rule => foldl attach b (rule_routes src ing rule))).
    + intros c a' rule. rewrite computeIngressRule_attach. apply foldl_attach_Source.
    + intros a' rule. apply computeIngressRule_attach.
Qed.


Lemma virtualhosts_attach (b : Builder) (ing : v1beta1.Ingress) (host : string) (r : Route) :
  virtualhosts (attach b (ing, host, r))
  = if plaintext ing
    then alter (fun v => addRoute v r) host (virtualhosts (lookupVirtualHost b host))
    else virtualhosts b.
Proof.
  unfold attach, plaintext.
  destruct (TLSRequired ing || HTTPAllowed ing);
    destruct (securevirtualhosts _ !! host);
    destruct (negb (String.eqb host "*")); reflexivity.
Qed.

Lemma securevirtualhosts_attach (b : Builder) (ing : v1beta1.Ingress) (host : string)
    (r : Route) :
  securevirtualhosts (attach b (ing, host, r))
  = match securevirtualhosts b !! host with
    | Some svh =>
        if negb (String.eqb host "*")
        then <[host := {| svhost_VirtualHost := addRoute (svhost_VirtualHost svh) r;
                          svhost_MinTLSVersion := svhost_MinTLSVersion svh;
                          svhost_Secret := svhost_Secret svh |}]> (securevirtualhosts b)
        else securevirtualhosts b
    | None => securevirtualhosts b
    end.
Proof.
  unfold attach.
  destruct (TLSRequired ing || HTTPAllowed ing); simpl;
    rewrite ?securevirtualhosts_lookupVirtualHost;
    destruct (securevirtualhosts b !! host);
    destruct (negb (String.eqb host "*")); simpl;
    rewrite ?securevirtualhosts_lookupVirtualHost; reflexivity.
Qed.

Lemma eqb_string_decide (x y : string) : String.eqb x y = bool_decide (x = y).
Proof.
  destruct (String.eqb_spec x y) as [->|Hne].
  - now rewrite bool_decide_eq_true_2.
  - now rewrite bool_decide_eq_false_2.
Qed.

(** One route: the plaintext virtual host of its host gains it exactly
    when the annotations ask for port 80 routes. *)
Lemma plain_routes_attach (b : Builder) (ing : v1beta1.Ingress) (host : string)
    (r : Route) (h : string) :
  plain_routes (attach b (ing, host, r)) h
  = (plain_routes b h ++ if plaintext ing && String.eqb host h then [r] else [])%list.
Proof.
  unfold plain_routes. rewrite virtualhosts_attach.
  destruct (plaintext ing); simpl; [|now rewrite app_nil_r].
  destruct (String.eqb_spec host h) as [->|Hne].
  - rewrite lookup_alter_eq. unfold lookupVirtualHost.
    destruct (virtualhosts b !! h) as [v|] eqn:Hv; simpl.
    + now rewrite Hv.
    + now rewrite lookup_insert_eq.
  - rewrite lookup_alter_ne by exact Hne. unfold lookupVirtualHost.
    destruct (virtualhosts b !! host) as [v|] eqn:Hv; simpl.
    + now rewrite app_nil_r.
    + rewrite lookup_insert_ne by exact Hne. now rewrite app_nil_r.
Qed.

Lemma plain_entry_attach (b : Builder) (ing : v1beta1.Ingress) (host : string)
    (r : Route) (h : string) :
  is_Some (virtualhosts (attach b (ing, host, r)) !! h)
  <-> is_Some (virtualhosts b !! h) \/ (plaintext ing = true /\ host = h).
Proof.
  rewrite virtualhosts_attach.
  destruct (plaintext ing); [|intuition congruence].
  destruct (decide (host = h)) as [->|Hne].
  - rewrite lookup_alter_eq. unfold lookupVirtualHost.
    destruct (virtualhosts b !! h) as [v|] eqn:Hv; simpl.
    + rewrite Hv. simpl. intuition eauto.
    + rewrite lookup_insert_eq. simpl. intuition eauto.
  - rewrite lookup_alter_ne by exact Hne. unfold lookupVirtualHost.
    destruct (virtualhosts b !! host) as [v|] eqn:Hv; simpl.
    + intuition congruence.
    + rewrite lookup_insert_ne by exact Hne. intuition congruence.
Qed.

(** One route: the secure virtual host of its host gains it exactly when
    there is an entry for that host and the host is not "*". *)
Lemma secure_routes_attach (b : Builder) (ing : v1beta1.Ingress) (host : string)
    (r : Route) (h : string) :
  secure_routes (attach b (ing, host, r)) h
  = (secure_routes b h ++
     if bool_decide (is_Some (securevirtualhosts b !! h)) && negb (String.eqb h "*")
        && String.eqb host h
     then [r] else [])%list.
Proof.
  unfold secure_routes. rewrite securevirtualhosts_attach.
  destruct (String.eqb_spec host h) as [->|Hne].
  - destruct (securevirtualhosts b !! h) as [svh|] eqn:Hsvh.
    + rewrite bool_decide_eq_true_2 by eauto. simpl.
      destruct (negb (String.eqb h "*")); simpl.
      * now rewrite lookup_insert_eq.
      * now rewrite Hsvh, app_nil_r.
    + now rewrite Hsvh.
  - rewrite andb_false_r, app_nil_r.
    destruct (securevirtualhosts b !! host) as [svh|] eqn:Hsvh; [|reflexivity].
    destruct (negb (String.eqb host "*")); [|reflexivity].
    now rewrite lookup_insert_ne by exact Hne.
Qed.

Lemma secure_entry_attach (b : Builder) (ev : v1beta1.Ingress * string * Route)
    (h : string) :
  is_Some (securevirtualhosts (attach b ev) !! h) <-> is_Some (securevirtualhosts b !! h).
Proof.
  destruct ev as [[ing host] r]. rewrite securevirtualhosts_attach.
  destruct (securevirtualhosts b !! host) as [svh|] eqn:Hsvh; [|reflexivity].
  destruct (negb (String.eqb host "*")); [|reflexivity].
  destruct (decide (host = h)) as [->|Hne].
  - rewrite lookup_insert_eq, Hsvh. split; eauto.
  - now rewrite lookup_insert_ne by exact Hne.
Qed.

Lemma routes_for_cons (sel : v1beta1.Ingress -> bool) (h : string)
    (ev : v1beta1.Ingress * string * Route) (evs : list (v1beta1.Ingress * string * Route)) :
  routes_for sel h (ev :: evs)
  = ((if sel ev.1.1 && String.eqb ev.1.2 h then [ev.2] else []) ++ routes_for sel h evs)%list.
Proof. reflexivity. Qed.

(** All the routes: what each virtual host holds once they are attached. *)
Lemma plain_routes_foldl_attach (evs : list (v1beta1.Ingress * string * Route)) :
  forall (b : Builder) (h : string),
    plain_routes (foldl attach b evs) h
    = (plain_routes b h ++ routes_for plaintext h evs)%list.
Proof.
  induction evs as [|[[ing host] r] evs IH]; intros b h.
  - unfold routes_for. simpl. now rewrite app_nil_r.
  - change (foldl attach b ((ing, host, r) :: evs))
      with (foldl attach (attach b (ing, host, r)) evs).
    rewrite IH, plain_routes_attach, routes_for_cons, <- app_assoc. reflexivity.
Qed.

Lemma plain_entry_foldl_attach (evs : list (v1beta1.Ingress * string * Route)) :
  forall (b : Builder) (h : string),
    is_Some (virtualhosts (foldl attach b evs) !! h)
    <-> is_Some (virtualhosts b !! h)
        \/ exists ev, In ev evs /\ plaintext ev.1.1 = true /\ ev.1.2 = h.
Proof.
  induction evs as [|[[ing host] r] evs IH]; intros b h.
  - split; [auto|]. intros [Hb|(ev & [] & _)]. exact Hb.
  - change (foldl attach b ((ing, host, r) :: evs))
      with (foldl attach (attach b (ing, host, r)) evs).
    rewrite IH, plain_entry_attach. split.
    + intros [[Hb|[Hp Hh]]|(ev & Hin & Hev)].
      * now left.
      * right. exists (ing, host, r). simpl. auto.
      * right. exists ev. simpl. tauto.
    + intros [Hb|(ev & [<-|Hin] & Hp & Hh)].
      * left. now left.
      * left. right. auto.
      * right. exists ev. auto.
Qed.

Lemma secure_entry_foldl_attach (evs : list (v1beta1.Ingress * string * Route)) :
  forall (b : Builder) (h : string),
    is_Some (securevirtualhosts (foldl attach b evs) !! h)
    <-> is_Some (securevirtualhosts b !! h).
Proof.
  induction evs as [|ev evs IH]; intros b h; [reflexivity|].
  change (foldl attach b (ev :: evs)) with (foldl attach (attach b ev) evs).
  now rewrite IH, secure_entry_attach.
Qed.

Lemma secure_routes_foldl_attach (evs : list (v1beta1.Ingress * string * Route)) :
  forall (b : Builder) (h : string),
    secure_routes (foldl attach b evs) h
    = (secure_routes b h ++
       if bool_decide (is_Some (securevirtualhosts b !! h)) && negb (String.eqb h "*")
       then routes_for (fun _ => true) h evs else [])%list.
Proof.
  induction evs as [|[[ing host] r] evs IH]; intros b h.
  - unfold routes_for. simpl. destruct (_ && _); now rewrite app_nil_r.
  - change (foldl attach b ((ing, host, r) :: evs))
      with (foldl attach (attach b (ing, host, r)) evs).
    rewrite IH, secure_routes_attach, routes_for_cons, <- app_assoc. f_equal.
    rewrite (bool_decide_ext _ _ (secure_entry_attach b (ing, host, r) h)).
    simpl.
    destruct (bool_decide (is_Some (securevirtualhosts b !! h)) && negb (String.eqb h "*"));
      simpl; [reflexivity|].
    reflexivity.
Qed.

(** The host of a route that Phase B builds is "*", or the host of a rule,
    without any wildcard character. *)
Lemma built_host (src : KubernetesCache) (ev : v1beta1.Ingress * string * Route) :
  In ev (built src) -> ev.1.2 = "*" \/ Contains ev.1.2 "*" = false.
Proof.
  unfold built. rewrite in_flat_map. intros (ing & _ & Hin).
  rewrite in_flat_map in Hin. destruct Hin as (rule & _ & Hin).
  unfold rule_routes in Hin.
  destruct (Contains (v1beta1.Host rule) "*") eqn:Hwild; [destruct Hin|].
  rewrite in_flat_map in Hin. destruct Hin as (hp & _ & Hin).
  unfold path_routes in Hin.
  destruct (LookupService _ _ _); [|destruct Hin].
  destruct Hin as [<-|[]]. simpl.
  destruct (String.eqb (v1beta1.Host rule) ""); [now left|now right].
Qed.


(** ** Phase A *)

Lemma foldl_map {A B C : Type} (f : A -> C -> A) (g : B -> C) (l : list B) :
  forall a : A, foldl f a (map g l) = foldl (fun a x => f a (g x)) a l.
Proof. induction l as [|x l IH]; intros a; simpl; [reflexivity|apply IH]. Qed.

Lemma foldl_pointwise {A B : Type} (f g : A -> B -> A) (l : list B) :
  (forall a x, f a x = g a x) -> forall a, foldl f a l = foldl g a l.
Proof.
  intros Hfg. induction l as [|x l IH]; intros a; simpl; [reflexivity|].
  now rewrite Hfg, IH.
Qed.

(** Phase A visits the TLS blocks one after the other. *)
Lemma computeSecureVirtualhosts_blocks (b : Builder) :
  computeSecureVirtualhosts b = foldl tls_step b (tls_blocks (Source b)).
Proof.
  unfold computeSecureVirtualhosts, tls_blocks. rewrite foldl_flat_map.
  apply foldl_pointwise. intros a ing. now rewrite foldl_map.
Qed.

Lemma secure_host_frame (ing : v1beta1.Ingress) (sec : Secret) (b : Builder)
    (host : string) :
  Source (secure_host ing sec b host) = Source b
  /\ virtualhosts (secure_host ing sec b host) = virtualhosts b
  /\ diagnostics (secure_host ing sec b host) = diagnostics b.
Proof.
  unfold secure_host, lookupSecureVirtualHost.
  destruct (securevirtualhosts b !! host); simpl; auto.
Qed.

Lemma secure_host_entry (ing : v1beta1.Ingress) (sec : Secret) (b : Builder)
    (host h : string) :
  is_Some (securevirtualhosts (secure_host ing sec b host) !! h)
  <-> is_Some (securevirtualhosts b !! h) \/ host = h.
Proof.
  unfold secure_host, lookupSecureVirtualHost.
  destruct (decide (host = h)) as [->|Hne].
  - destruct (securevirtualhosts b !! h) as [svh|] eqn:Hsvh; simpl.
    + rewrite lookup_alter_eq, Hsvh. simpl. intuition eauto.
    + rewrite lookup_alter_eq, lookup_insert_eq. simpl. intuition eauto.
  - destruct (securevirtualhosts b !! host) as [svh|] eqn:Hsvh; simpl.
    + rewrite lookup_alter_ne by exact Hne. intuition congruence.
    + rewrite lookup_alter_ne, lookup_insert_ne by exact Hne. intuition congruence.
Qed.

Lemma secure_host_congr (ing : v1beta1.Ingress) (sec : Secret) (b1 b2 : Builder)
    (host : string) :
  securevirtualhosts b1 = securevirtualhosts b2 ->
  securevirtualhosts (secure_host ing sec b1 host)
  = securevirtualhosts (secure_host ing sec b2 host).
Proof.
  intros Heq. unfold secure_host, lookupSecureVirtualHost. rewrite Heq.
  destruct (securevirtualhosts b2 !! host); simpl; now rewrite ?Heq.
Qed.

Lemma secure_hosts_congr (ing : v1beta1.Ingress) (sec : Secret) (hosts : list string) :
  forall b1 b2 : Builder,
    securevirtualhosts b1 = securevirtualhosts b2 ->
    securevirtualhosts (foldl (secure_host ing sec) b1 hosts)
    = securevirtualhosts (foldl (secure_host ing sec) b2 hosts).
Proof.
  induction hosts as [|host hosts IH]; intros b1 b2 Heq; simpl; [exact Heq|].
  apply IH. now apply secure_host_congr.
Qed.

Lemma secure_hosts_entry (ing : v1beta1.Ingress) (sec : Secret) (hosts : list string) :
  forall (b : Builder) (h : string),
    is_Some (securevirtualhosts (foldl (secure_host ing sec) b hosts) !! h)
    <-> is_Some (securevirtualhosts b !! h) \/ In h hosts.
Proof.
  induction hosts as [|host hosts IH]; intros b h; simpl.
  - tauto.
  - rewrite IH, secure_host_entry. tauto.
Qed.

(** A TLS block that passes both checks populates its hosts. *)
Lemma tls_step_ok (b : Builder) (blk : v1beta1.Ingress * v1beta1.IngressTLS) :
  tls_ok (Source b) blk = true ->
  exists sec : Secret,
    LookupSecret (Source b) (secret_name blk.1 blk.2) validSecret = inl sec
    /\ tls_step b blk = foldl (secure_host blk.1 sec) b (v1beta1.Hosts blk.2).
Proof.
  unfold tls_ok, tls_step, computeSecureVirtualhosts_tls, secret_name.
  destruct (LookupSecret _ _ _) as [sec|err]; [|discriminate].
  intros ->. exists sec. split; reflexivity.
Qed.

(** A TLS block that fails a check records a diagnostic and nothing else. *)
Lemma tls_step_fail (b : Builder) (blk : v1beta1.Ingress * v1beta1.IngressTLS) :
  tls_ok (Source b) blk = false ->
  tls_step b blk
  = {| Source := Source b; virtualhosts := virtualhosts b;
       securevirtualhosts := securevirtualhosts b;
       diagnostics := diagnostics b ++ [tls_diagnostic (Source b) blk] |}.
Proof.
  unfold tls_ok, tls_step, tls_diagnostic, computeSecureVirtualhosts_tls, secret_name.
  destruct (LookupSecret _ _ _) as [sec|err]; [|reflexivity].
  intros ->. reflexivity.
Qed.

Lemma tls_step_frame (b : Builder) (blk : v1beta1.Ingress * v1beta1.IngressTLS) :
  Source (tls_step b blk) = Source b /\ virtualhosts (tls_step b blk) = virtualhosts b.
Proof.
  destruct (tls_ok (Source b) blk) eqn:Hok.
  - destruct (tls_step_ok b blk Hok) as (sec & _ & ->).
    split.
    + apply (foldl_preserves Source). intros a x. apply secure_host_frame.
    + apply (foldl_preserves virtualhosts). intros a x. apply secure_host_frame.
  - rewrite (tls_step_fail b blk Hok). split; reflexivity.
Qed.

Lemma tls_steps_Source (blks : list (v1beta1.Ingress * v1beta1.IngressTLS)) (b : Builder) :
  Source (foldl tls_step b blks) = Source b.
Proof. apply (foldl_preserves Source). intros a x. apply tls_step_frame. Qed.

Lemma tls_steps_virtualhosts (blks : list (v1beta1.Ingress * v1beta1.IngressTLS))
    (b : Builder) :
  virtualhosts (foldl tls_step b blks) = virtualhosts b.
Proof. apply (foldl_preserves virtualhosts). intros a x. apply tls_step_frame. Qed.

Lemma tls_step_entry (b : Builder) (blk : v1beta1.Ingress * v1beta1.IngressTLS)
    (h : string) :
  is_Some (securevirtualhosts (tls_step b blk) !! h)
  <-> is_Some (securevirtualhosts b !! h)
      \/ (tls_ok (Source b) blk = true /\ In h (v1beta1.Hosts blk.2)).
Proof.
  destruct (tls_ok (Source b) blk) eqn:Hok.
  - destruct (tls_step_ok b blk Hok) as (sec & _ & ->).
    rewrite secure_hosts_entry. tauto.
  - rewrite (tls_step_fail b blk Hok). simpl. intuition congruence.
Qed.

Lemma tls_step_congr (b1 b2 : Builder) (blk : v1beta1.Ingress * v1beta1.IngressTLS) :
  Source b1 = Source b2 -> securevirtualhosts b1 = securevirtualhosts b2 ->
  securevirtualhosts (tls_step b1 blk) = securevirtualhosts (tls_step b2 blk).
Proof.
  intros Hsrc Hsvh. destruct (tls_ok (Source b1) blk) eqn:Hok.
  - destruct (tls_step_ok b1 blk Hok) as (sec1 & Hsec1 & ->).
    rewrite Hsrc in Hok. destruct (tls_step_ok b2 blk Hok) as (sec2 & Hsec2 & ->).
    rewrite Hsrc, Hsec2 in Hsec1. injection Hsec1 as <-.
    now apply secure_hosts_congr.
  - rewrite (tls_step_fail b1 blk Hok). rewrite Hsrc in Hok.
    rewrite (tls_step_fail b2 blk Hok). exact Hsvh.
Qed.

(** The secure virtual hosts after Phase A are those the blocks that pass
    both checks produce on their own. *)
Lemma tls_steps_filter (blks : list (v1beta1.Ingress * v1beta1.IngressTLS)) :
  forall b1 b2 : Builder,
    Source b1 = Source b2 -> securevirtualhosts b1 = securevirtualhosts b2 ->
    securevirtualhosts (foldl tls_step b1 blks)
    = securevirtualhosts (foldl tls_step b2 (List.filter (tls_ok (Source b1)) blks)).
Proof.
  induction blks as [|blk blks IH]; intros b1 b2 Hsrc Hsvh; simpl; [exact Hsvh|].
  destruct (tls_ok (Source b1) blk) eqn:Hok; simpl.
  - rewrite <- (proj1 (tls_step_frame b1 blk)). apply IH.
    + now rewrite (proj1 (tls_step_frame b1 blk)), (proj1 (tls_step_frame b2 blk)).
    + now apply tls_step_congr.
  - rewrite <- (proj1 (tls_step_frame b1 blk)). apply IH.
    + now rewrite (proj1 (tls_step_frame b1 blk)).
    + now rewrite (tls_step_fail b1 blk Hok).
Qed.

Lemma tls_steps_diagnostics (blks : list (v1beta1.Ingress * v1beta1.IngressTLS)) :
  forall b : Builder,
    diagnostics (foldl tls_step b blks)
    = (diagnostics b ++
       map (tls_diagnostic (Source b))
           (List.filter (fun blk => negb (tls_ok (Source b) blk)) blks))%list.
Proof.
  induction blks as [|blk blks IH]; intros b; simpl; [now rewrite app_nil_r|].
  rewrite IH, (proj1 (tls_step_frame b blk)).
  destruct (tls_ok (Source b) blk) eqn:Hok; simpl.
  - destruct (tls_step_ok b blk Hok) as (sec & _ & ->).
    f_equal. apply (foldl_preserves diagnostics). intros a x. apply secure_host_frame.
  - rewrite (tls_step_fail b blk Hok). simpl. now rewrite <- app_assoc.
Qed.

Lemma tls_steps_entry (blks : list (v1beta1.Ingress * v1beta1.IngressTLS)) :
  forall (b : Builder) (h : string),
    is_Some (securevirtualhosts (foldl tls_step b blks) !! h)
    <-> is_Some (securevirtualhosts b !! h)
        \/ exists blk, In blk blks /\ tls_ok (Source b) blk = true
                       /\ In h (v1beta1.Hosts blk.2).
Proof.
  induction blks as [|blk blks IH]; intros b h; simpl.
  - split; [auto|]. intros [Hb|(blk & [] & _)]. exact Hb.
  - rewrite IH, tls_step_entry, (proj1 (tls_step_frame b blk)). split.
    + intros [[Hb|Hnew]|(blk' & Hin & Hrest)].
      * now left.
      * right. exists blk. auto.
      * right. exists blk'. auto.
    + intros [Hb|(blk' & [<-|Hin] & Hrest)].
      * left. now left.
      * left. now right.
      * right. exists blk'. auto.
Qed.


Lemma secure_routes_secure_host (ing : v1beta1.Ingress) (sec : Secret) (b : Builder)
    (host h : string) :
  secure_routes (secure_host ing sec b host) h = secure_routes b h.
Proof.
  unfold secure_routes, secure_host, lookupSecureVirtualHost.
  destruct (decide (host = h)) as [->|Hne].
  - destruct (securevirtualhosts b !! h) as [svh|] eqn:Hsvh; simpl.
    + now rewrite lookup_alter_eq, Hsvh.
    + now rewrite lookup_alter_eq, lookup_insert_eq.
  - destruct (securevirtualhosts b !! host) as [svh|] eqn:Hsvh; simpl.
    + now rewrite lookup_alter_ne by exact Hne.
    + now rewrite lookup_alter_ne, lookup_insert_ne by exact Hne.
Qed.

(** Phase A attaches no route. *)
Lemma secure_routes_tls_steps (blks : list (v1beta1.Ingress * v1beta1.IngressTLS))
    (b : Builder) (h : string) :
  secure_routes (foldl tls_step b blks) h = secure_routes b h.
Proof.
  apply (foldl_preserves (fun b => secure_routes b h)). intros a blk.
  destruct (tls_ok (Source a) blk) eqn:Hok.
  - destruct (tls_step_ok a blk Hok) as (sec & _ & ->).
    apply (foldl_preserves (fun b => secure_routes b h)). intros a' host.
    apply secure_routes_secure_host.
  - now rewrite (tls_step_fail a blk Hok).
Qed.

Lemma in_routes_for (sel : v1beta1.Ingress -> bool) (h : string) (r : Route)
    (evs : list (v1beta1.Ingress * string * Route)) :
  In r (routes_for sel h evs) <-> exists ing, In (ing, h, r) evs /\ sel ing = true.
Proof.
  unfold routes_for. rewrite in_flat_map. split.
  - intros ([[ing host] r'] & Hin & Hr). simpl in Hr.
    destruct (sel ing) eqn:Hsel; [|destruct Hr].
    destruct (String.eqb_spec host h) as [->|Hne]; [|destruct Hr].
    destruct Hr as [<-|[]]. exists ing. auto.
  - intros (ing & Hin & Hsel). exists (ing, h, r). split; [exact Hin|].
    simpl. rewrite Hsel, String.eqb_refl. now left.
Qed.

(** The whole run, seen from the plaintext and the secure virtual hosts. *)
Lemma Run_attach (b : Builder) :
  Run b = foldl attach (computeSecureVirtualhosts b) (built (Source b)).
Proof.
  unfold Run. rewrite computeIngresses_attach, computeSecureVirtualhosts_blocks.
  now rewrite tls_steps_Source.
Qed.

Lemma has_byte_In (c : ascii) (s : string) :
  has_byte c s = true <-> In c (list_ascii_of_string s).
Proof.
  induction s as [|d s IH]; simpl; [intuition discriminate|].
  destruct (Ascii.eqb_spec c d) as [->|Hne]; [tauto|].
  rewrite IH. intuition congruence.
Qed.

Lemma ContainsAny_In (s chars : string) :
  ContainsAny s chars = true
  <-> exists c, In c (list_ascii_of_string s) /\ In c (list_ascii_of_string chars).
Proof.
  induction s as [|d s IH]; simpl.
  - split; [discriminate|]. intros (c & [] & _).
  - destruct (has_byte d chars) eqn:Hd.
    + split; [|reflexivity]. intros _. exists d.
      split; [now left|now apply has_byte_In].
    + rewrite IH. split.
      * intros (c & Hc & Hin). exists c. auto.
      * intros (c & [<-|Hc] & Hin).
        -- apply has_byte_In in Hin. congruence.
        -- exists c. auto.
Qed.

End ProcessorFacts.

(** * The routes Phase B builds are the routes the ingresses declare *)
Section RuleFacts.
Import gostrings dag processor rules.
Context `{Collaborators}.

Lemma defaultBackendRule_default_rule (be : v1beta1.IngressBackend) :
  defaultBackendRule be = default_rule be.
Proof. destruct be. reflexivity. Qed.

Lemma rulesFromSpec_rule_of (ing : v1beta1.Ingress) (rule : v1beta1.IngressRule) :
  In rule (rulesFromSpec (v1beta1.Spec ing)) <-> rule_of ing rule.
Proof.
  unfold rulesFromSpec, rule_of.
  destruct (v1beta1.spec_Backend (v1beta1.Spec ing)) as [be|].
  - rewrite in_app_iff, defaultBackendRule_default_rule. split.
    + intros [Hin|[<-|[]]]; [now left|right; eauto].
    + intros [Hin|(be' & Heq & ->)]; [now left|].
      injection Heq as <-. right. now left.
  - split; [now left|]. intros [Hin|(be' & Heq & _)]; [exact Hin|discriminate].
Qed.

Lemma httppaths_path_of (rule : v1beta1.IngressRule) (httppath : v1beta1.HTTPIngressPath) :
  In httppath (httppaths rule) <-> path_of rule httppath.
Proof.
  unfold httppaths, path_of. destruct (v1beta1.HTTP rule) as [http|].
  - split; [eauto|]. intros (http' & Heq & Hin). now injection Heq as <-.
  - split; [intros []|]. intros (http' & Heq & _). discriminate.
Qed.

(** Phase B builds a route for a host exactly when an ingress of the
    snapshot declares it for that host. *)
Lemma built_declared (src : KubernetesCache) (ing : v1beta1.Ingress) (h : string)
    (r : Route) :
  In (ing, h, r) (built src) <-> declared src ing h r.
Proof.
  unfold built, declared, route_of, resolves, host_of, path_string. split.
  - rewrite in_flat_map. intros (ing' & Hing & Hin).
    rewrite in_flat_map in Hin. destruct Hin as (rule & Hrule & Hin).
    unfold rule_routes in Hin.
    destruct (Contains (v1beta1.Host rule) "*") eqn:Hwild; [destruct Hin|].
    rewrite in_flat_map in Hin. destruct Hin as (hp & Hhp & Hin).
    unfold path_routes in Hin.
    destruct (LookupService _ _ _) as [s|] eqn:Hs; [|destruct Hin].
    destruct Hin as [Heq|[]]. injection Heq as -> <- <-.
    exists rule, hp, s.
    apply rulesFromSpec_rule_of in Hrule. apply httppaths_path_of in Hhp.
    repeat split; auto.
  - intros (rule & hp & s & (Hing & Hrule & Hhp & Hs & ->) & Hwild & ->).
    apply rulesFromSpec_rule_of in Hrule. apply httppaths_path_of in Hhp.
    rewrite in_flat_map. exists ing. split; [exact Hing|].
    rewrite in_flat_map. exists rule. split; [exact Hrule|].
    unfold rule_routes. rewrite Hwild.
    rewrite in_flat_map. exists hp. split; [exact Hhp|].
    unfold path_routes. rewrite Hs. now left.
Qed.

(** The hosts of declared routes: the default host "*", or a host without
    a wildcard character. *)
Lemma declared_host (src : KubernetesCache) (ing : v1beta1.Ingress) (h : string)
    (r : Route) :
  declared src ing h r -> h = "*" \/ Contains h "*" = false.
Proof.
  intros Hd. apply built_declared in Hd. exact (built_host src (ing, h, r) Hd).
Qed.

(** A TLS block passes the checks of Phase A, in the terms of the snapshot. *)
Lemma tls_resolved_listed (src : KubernetesCache) (h : string) :
  tls_resolved src h <-> tls_listed src h.
Proof.
  unfold tls_resolved, tls_listed, tls_blocks, tls_ok, secret_name. split.
  - intros ([ing tls] & Hin & Hok & Hh). simpl in Hok, Hh.
    rewrite in_flat_map in Hin. destruct Hin as (ing' & Hing & Hin).
    rewrite in_map_iff in Hin. destruct Hin as (tls' & Heq & Htls).
    injection Heq as -> ->.
    destruct (LookupSecret src _ validSecret) as [sec|] eqn:Hsec; [|discriminate].
    exists ing, tls, sec. auto.
  - intros (ing & tls & sec & Hing & Htls & Hh & Hsec & Hdeleg).
    exists (ing, tls). simpl. rewrite Hsec. repeat split; auto.
    rewrite in_flat_map. exists ing. split; [exact Hing|].
    rewrite in_map_iff. exists tls. auto.
Qed.

(** The routes among the attachments, and where an attachment comes from. *)
Lemma map_attachments (sel : v1beta1.Ingress -> bool) (h : string)
    (evs : list (v1beta1.Ingress * string * Route)) :
  map snd (attachments sel h evs) = routes_for sel h evs.
Proof.
  unfold attachments, routes_for.
  induction evs as [|ev evs IH]; [reflexivity|]. simpl.
  rewrite map_app, IH. f_equal.
  destruct (sel ev.1.1 && String.eqb ev.1.2 h); reflexivity.
Qed.

Lemma in_attachments (sel : v1beta1.Ingress -> bool) (h : string)
    (evs : list (v1beta1.Ingress * string * Route)) (ing : v1beta1.Ingress) (r : Route) :
  In (ing, r) (attachments sel h evs) <-> In (ing, h, r) evs /\ sel ing = true.
Proof.
  unfold attachments. rewrite in_flat_map. split.
  - intros ([[ing' host] r'] & Hin & Hr). simpl in Hr.
    destruct (sel ing') eqn:Hsel; [|destruct Hr].
    destruct (String.eqb_spec host h) as [->|]; [|destruct Hr].
    destruct Hr as [Heq|[]]. injection Heq as -> ->. auto.
  - intros (Hin & Hsel). exists (ing, h, r). split; [exact Hin|].
    simpl. rewrite Hsel, String.eqb_refl. now left.
Qed.

(** What a run attaches to the plaintext and to the secure virtual host of
    [h], each route with the ingress it was built for. *)
Lemma Run_plain_attachments (b : Builder) (h : string) :
  plain_routes (Run b) h
  = (plain_routes b h
     ++ map snd (attachments (fun ing => TLSRequired ing || HTTPAllowed ing) h
                   (built (Source b))))%list.
Proof.
  rewrite map_attachments, Run_attach, plain_routes_foldl_attach. f_equal.
  unfold plain_routes. rewrite computeSecureVirtualhosts_blocks.
  now rewrite tls_steps_virtualhosts.
Qed.

Lemma Run_secure_attachments (b : Builder) (h : string) :
  secure_routes (Run b) h
  = (secure_routes b h
     ++ map snd
          (if bool_decide (is_Some (securevirtualhosts (computeSecureVirtualhosts b) !! h))
              && negb (String.eqb h "*")
           then attachments (fun _ => true) h (built (Source b)) else []))%list.
Proof.
  rewrite Run_attach, secure_routes_foldl_attach.
  rewrite computeSecureVirtualhosts_blocks at 1. rewrite secure_routes_tls_steps.
  f_equal. destruct (_ && _); [|reflexivity]. now rewrite map_attachments.
Qed.

Lemma computeSecureVirtualhosts_entry (b : Builder) (h : string) :
  is_Some (securevirtualhosts (computeSecureVirtualhosts b) !! h)
  <-> is_Some (securevirtualhosts b !! h) \/ tls_listed (Source b) h.
Proof.
  rewrite computeSecureVirtualhosts_blocks, tls_steps_entry.
  now rewrite <- tls_resolved_listed.
Qed.

End RuleFacts.

(** * The claims about the Ingress processor *)
Section ProcessorClaims.
Import gostrings dag processor rules.
Context `{Collaborators}.

(** C1. What a run attaches to the secure virtual host of [h]: its routes
    after the run are those it had before, followed by the attachments,
    each a route with the ingress it was built for. The route of a path,
    with a Service that resolves, of a rule of [ing] whose host holds no
    wildcard character is attached under the host [h] the rule is filed
    under if and only if [h] is not "*" and a secure virtual host for [h]
    exists once Phase A is done; one exists then when it was there before
    the run, or when some TLS block that lists [h] passed both checks of
    Phase A. Nothing but declared routes is attached, and nothing at all
    under a host that holds a wildcard character: a rule for such a host
    is rejected. *)
Theorem Run_secure_attachment_by_rule (b : Builder) (h : string) :
  exists attached : list (v1beta1.Ingress * Route),
    secure_routes (Run b) h = (secure_routes b h ++ map snd attached)%list
    /\ (forall (ing : v1beta1.Ingress) (rule : v1beta1.IngressRule)
               (httppath : v1beta1.HTTPIngressPath) (s : Service) (r : Route),
          route_of (Source b) ing rule httppath s r ->
          Contains (v1beta1.Host rule) "*" = false ->
          h = host_of rule ->
          (In (ing, r) attached
           <-> h <> "*"
               /\ is_Some (securevirtualhosts (computeSecureVirtualhosts b) !! h)))
    /\ (forall (ing : v1beta1.Ingress) (r : Route),
          In (ing, r) attached -> declared (Source b) ing h r)
    /\ (Contains h "*" = true -> attached = [])
    /\ (is_Some (securevirtualhosts (computeSecureVirtualhosts b) !! h)
        <-> is_Some (securevirtualhosts b !! h) \/ tls_listed (Source b) h).
Proof.
  exists (if bool_decide (is_Some (securevirtualhosts (computeSecureVirtualhosts b) !! h))
             && negb (String.eqb h "*")
          then attachments (fun _ => true) h (built (Source b)) else []).
  split; [apply Run_secure_attachments|].
  assert (Hfrom : forall (ing : v1beta1.Ingress) (r : Route),
             In (ing, r)
                (if bool_decide
                      (is_Some (securevirtualhosts (computeSecureVirtualhosts b) !! h))
                    && negb (String.eqb h "*")
                 then attachments (fun _ => true) h (built (Source b)) else [])
             -> declared (Source b) ing h r).
  { intros ing r Hin. destruct (_ && _); [|destruct Hin].
    apply in_attachments in Hin. now apply built_declared. }
  split; [|split; [exact Hfrom|split]].
  - intros ing rule httppath s r Hroute Hwild Hh.
    assert (Hd : declared (Source b) ing h r) by (exists rule, httppath, s; auto).
    destruct (String.eqb_spec h "*") as [Hstar|Hne].
    + rewrite andb_false_r. simpl. tauto.
    + rewrite andb_true_r.
      destruct (bool_decide_reflect
                  (is_Some (securevirtualhosts (computeSecureVirtualhosts b) !! h)))
        as [Hsome|Hnone].
      * rewrite in_attachments, built_declared. tauto.
      * simpl. tauto.
  - intros Hwild.
    destruct (String.eqb_spec h "*") as [Hstar|Hne].
    + now rewrite andb_false_r.
    + destruct (if bool_decide _ && _ then _ else _) as [|[ing r] rest];
        [reflexivity|exfalso].
      destruct (declared_host _ _ _ _ (Hfrom ing r (or_introl eq_refl))) as [Hstar|Hnone];
        [contradiction|congruence].
  - apply computeSecureVirtualhosts_entry.
Qed.

(** C4. What a run attaches to the plaintext virtual host of [h]: its
    routes after the run are those it had before, followed by the
    attachments, each a route with the ingress it was built for. The route
    of a path, with a Service that resolves, of a rule of [ing] whose host
    holds no wildcard character is attached under the host [h] the rule is
    filed under if and only if [ing] requires TLS or allows HTTP. Nothing
    but declared routes is attached, and nothing at all under a host other
    than "*" that holds a wildcard character: a rule for such a host is
    rejected. *)
Theorem Run_plaintext_attachment_by_rule (b : Builder) (h : string) :
  exists attached : list (v1beta1.Ingress * Route),
    plain_routes (Run b) h = (plain_routes b h ++ map snd attached)%list
    /\ (forall (ing : v1beta1.Ingress) (rule : v1beta1.IngressRule)
               (httppath : v1beta1.HTTPIngressPath) (s : Service) (r : Route),
          route_of (Source b) ing rule httppath s r ->
          Contains (v1beta1.Host rule) "*" = false ->
          h = host_of rule ->
          (In (ing, r) attached <-> (TLSRequired ing || HTTPAllowed ing) = true))
    /\ (forall (ing : v1beta1.Ingress) (r : Route),
          In (ing, r) attached -> declared (Source b) ing h r)
    /\ (Contains h "*" = true -> h <> "*" -> attached = []).
Proof.
  exists (attachments (fun ing => TLSRequired ing || HTTPAllowed ing) h (built (Source b))).
  split; [apply Run_plain_attachments|].
  assert (Hfrom : forall (ing : v1beta1.Ingress) (r : Route),
             In (ing, r)
                (attachments (fun ing => TLSRequired ing || HTTPAllowed ing) h
                   (built (Source b)))
             -> declared (Source b) ing h r).
  { intros ing r Hin. apply in_attachments in Hin. now apply built_declared. }
  split; [|split; [exact Hfrom|]].
  - intros ing rule httppath s r Hroute Hwild Hh.
    assert (Hd : declared (Source b) ing h r) by (exists rule, httppath, s; auto).
    rewrite in_attachments, built_declared. tauto.
  - intros Hwild Hne.
    destruct (attachments _ h (built (Source b))) as [|[ing r] rest];
      [reflexivity|exfalso].
    destruct (declared_host _ _ _ _ (Hfrom ing r (or_introl eq_refl))) as [Hstar|Hnone];
      [contradiction|congruence].
Qed.

(** C6. A TLS block that fails a check of Phase A (the secret lookup or
    validation returns an error, or delegation is not permitted) leaves
    both maps of virtual hosts as they were and records one diagnostic,
    which names the ingress, its namespace and the secret; over the whole
    phase the secure virtual hosts are those that the blocks passing both
    checks produce on their own, the plaintext virtual hosts are untouched,
    and there is one diagnostic more for each failing block. *)
Theorem computeSecureVirtualhosts_skips_failures (b : Builder) :
  (forall (ing : v1beta1.Ingress) (tls : v1beta1.IngressTLS),
      tls_ok (Source b) (ing, tls) = false ->
      securevirtualhosts (computeSecureVirtualhosts_tls ing b tls) = securevirtualhosts b
      /\ virtualhosts (computeSecureVirtualhosts_tls ing b tls) = virtualhosts b
      /\ exists d : Diagnostic,
          diagnostics (computeSecureVirtualhosts_tls ing b tls) = (diagnostics b ++ [d])%list
          /\ diag_name d = v1beta1.Name ing
          /\ diag_namespace d = v1beta1.Namespace ing
          /\ diag_secret d = secret_name ing tls)
  /\ securevirtualhosts (computeSecureVirtualhosts b)
     = securevirtualhosts
         (foldl tls_step b (List.filter (tls_ok (Source b)) (tls_blocks (Source b))))
  /\ virtualhosts (computeSecureVirtualhosts b) = virtualhosts b
  /\ diagnostics (computeSecureVirtualhosts b)
     = (diagnostics b
        ++ map (tls_diagnostic (Source b))
               (List.filter (fun blk => negb (tls_ok (Source b) blk))
                            (tls_blocks (Source b))))%list.
Proof.
  split; [|split; [|split]].
  - intros ing tls Hfail.
    change (computeSecureVirtualhosts_tls ing b tls) with (tls_step b (ing, tls)).
    rewrite (tls_step_fail b (ing, tls) Hfail). simpl.
    split; [reflexivity|]. split; [reflexivity|].
    exists (tls_diagnostic (Source b) (ing, tls)). split; [reflexivity|].
    unfold tls_diagnostic. simpl. destruct (LookupSecret _ _ _); auto.
  - rewrite computeSecureVirtualhosts_blocks. now apply tls_steps_filter.
  - rewrite computeSecureVirtualhosts_blocks. apply tls_steps_virtualhosts.
  - rewrite computeSecureVirtualhosts_blocks. apply tls_steps_diagnostics.
Qed.

(** C7, amended. For an ingress of the snapshot with no TLS block, no rule
    and a default backend whose Service resolves, and which requires TLS or
    allows HTTP, the plaintext virtual host for "*" holds after the run a
    route that matches the prefix "/" and whose only cluster is that
    Service. *)
Theorem Run_default_backend (b : Builder) (ing : v1beta1.Ingress)
    (be : v1beta1.IngressBackend) (s : Service) :
  In ing (ingresses (Source b)) ->
  v1beta1.TLS (v1beta1.Spec ing) = [] ->
  v1beta1.Rules (v1beta1.Spec ing) = [] ->
  v1beta1.spec_Backend (v1beta1.Spec ing) = Some be ->
  lookupService b {| types.Name := v1beta1.ServiceName be;
                     types.Namespace := v1beta1.Namespace ing |}
                (v1beta1.ServicePort be) = inl s ->
  (TLSRequired ing || HTTPAllowed ing) = true ->
  exists r : Route,
    In r (plain_routes (Run b) "*")
    /\ PathMatchCondition r = PrefixMatchCondition "/"
    /\ Clusters r = [{| Upstream := s; cluster_Protocol := Protocol s |}].
Proof.
  intros Hin _ Hrules Hbackend Hservice Hflag.
  exists (route ing "/" s). split; [|split; reflexivity].
  rewrite Run_attach, plain_routes_foldl_attach. apply in_or_app. right.
  apply in_routes_for. exists ing. split; [|exact Hflag].
  unfold built. apply in_flat_map. exists ing. split; [exact Hin|].
  apply in_flat_map. exists (defaultBackendRule be). split.
  - unfold rulesFromSpec. rewrite Hrules, Hbackend. now left.
  - unfold rule_routes, defaultBackendRule. simpl.
    unfold path_routes. simpl. unfold lookupService in Hservice.
    rewrite Hservice. now left.
Qed.

(** C8. The path-match condition of [route] is the Regex variant when the
    path holds one of the characters ^ + * [ ] %, and the Prefix variant
    otherwise; it is one of the two and never both, and every route Phase B
    builds is made by [route]. *)
Theorem route_path_match (ing : v1beta1.Ingress) (path : string) (s : Service) :
  (PathMatchCondition (route ing path s) = RegexMatchCondition path
   <-> smells_like_regex path)
  /\ (PathMatchCondition (route ing path s) = PrefixMatchCondition path
      <-> ~ smells_like_regex path)
  /\ (forall (src : KubernetesCache) (ev : v1beta1.Ingress * string * Route),
        In ev (built src) -> exists path' s', ev.2 = route ev.1.1 path' s').
Proof.
  assert (Hsmell : ContainsAny path "^+*[]%" = true <-> smells_like_regex path)
    by apply ContainsAny_In.
  split; [|split].
  - simpl. destruct (ContainsAny path "^+*[]%").
    + intuition.
    + split; [discriminate|]. intros Hs. apply Hsmell in Hs. discriminate.
  - simpl. destruct (ContainsAny path "^+*[]%").
    + split; [discriminate|]. intros Hn. exfalso. apply Hn. now apply Hsmell.
    + split; [|reflexivity]. intros _ Hs. apply Hsmell in Hs. discriminate.
  - intros src ev. unfold built. rewrite in_flat_map. intros (ing' & _ & Hin).
    rewrite in_flat_map in Hin. destruct Hin as (rule & _ & Hin).
    unfold rule_routes in Hin.
    destruct (Contains (v1beta1.Host rule) "*"); [destruct Hin|].
    rewrite in_flat_map in Hin. destruct Hin as (hp & _ & Hin).
    unfold path_routes in Hin.
    destruct (LookupService _ _ _) as [s'|]; [|destruct Hin].
    destruct Hin as [<-|[]]. simpl. eauto.
Qed.

(** C3, amended. Phase B adds no entry to the map of secure virtual hosts,
    Phase A adds none to the map of plaintext virtual hosts, and a host
    that gets a plaintext virtual host during the run is the default host
    "*" or holds no wildcard character. *)
Theorem Run_hosts (b : Builder) (h : string) :
  (is_Some (securevirtualhosts (Run b) !! h)
   <-> is_Some (securevirtualhosts (computeSecureVirtualhosts b) !! h))
  /\ virtualhosts (computeSecureVirtualhosts b) = virtualhosts b
  /\ (is_Some (virtualhosts (Run b) !! h) ->
      is_Some (virtualhosts b !! h) \/ h = "*" \/ Contains h "*" = false).
Proof.
  assert (Hplain : virtualhosts (computeSecureVirtualhosts b) = virtualhosts b)
    by (rewrite computeSecureVirtualhosts_blocks; apply tls_steps_virtualhosts).
  split; [|split; [exact Hplain|]].
  - rewrite Run_attach. apply secure_entry_foldl_attach.
  - rewrite Run_attach, plain_entry_foldl_attach, Hplain.
    intros [Hb|(ev & Hin & _ & <-)]; [now left|right].
    now apply built_host in Hin.
Qed.

End ProcessorClaims.

(** * The examples *)
Section ProcessorExamples.
Import gostrings dag processor rules fixtures.
Existing Instance stock.

(** The two variants of the path match on concrete paths. *)
Example route_path_match_values :
  PathMatchCondition (route backend_only "/api/*" kuard) = RegexMatchCondition "/api/*"
  /\ PathMatchCondition (route backend_only "/api" kuard) = PrefixMatchCondition "/api"
  /\ PathMatchCondition (route backend_only "/a[0-9]" kuard) = RegexMatchCondition "/a[0-9]".
Proof. repeat split; reflexivity. Qed.

(** C1 on an ingress with two TLS blocks, of which the second passes: the
    route for the host of the second block is attached to its secure
    virtual host, the route for the host of the first is not. *)
Lemma Run_secure_attachment_two_blocks :
  secure_routes (run [two_blocks]) "b.example.com" = [route two_blocks "/" kuard]
  /\ secure_routes (run [two_blocks]) "a.example.com" = [].
Proof. split; vm_compute; reflexivity. Qed.

(** C7, as stated, fails: the ingress has no TLS block, no rule and a
    default backend whose Service resolves, and no route is attached to the
    plaintext virtual host for "*", because the ingress neither requires
    TLS nor allows HTTP. *)
Lemma Run_default_backend_counterexample :
  In backend_no_http (ingresses (Source (fresh (snapshot [backend_no_http]))))
  /\ v1beta1.TLS (v1beta1.Spec backend_no_http) = []
  /\ v1beta1.Rules (v1beta1.Spec backend_no_http) = []
  /\ v1beta1.spec_Backend (v1beta1.Spec backend_no_http) = Some to_kuard
  /\ lookupService (fresh (snapshot [backend_no_http]))
       {| types.Name := "kuard"; types.Namespace := "default" |}
       (v1beta1.FromInt 80) = inl kuard
  /\ plain_routes (run [backend_no_http]) "*" = [].
Proof. repeat split; try reflexivity. now left. Qed.

(** The amended C7 on the same ingress without the annotation. *)
Lemma Run_default_backend_witness :
  exists r : Route,
    In r (plain_routes (run [backend_only]) "*")
    /\ PathMatchCondition r = PrefixMatchCondition "/"
    /\ Clusters r = [{| Upstream := kuard; cluster_Protocol := Protocol kuard |}].
Proof.
  apply (Run_default_backend (fresh (snapshot [backend_only])) backend_only to_kuard kuard).
  - now left.
  - reflexivity.
  - reflexivity.
  - reflexivity.
  - reflexivity.
  - reflexivity.
Defined.

(** C3, as stated, fails: the host "*.example.com" of a TLS block holds a
    wildcard character and gets a secure virtual host in Phase A, and the
    default host "*", which Phase B writes for a rule without a host, gets
    a plaintext virtual host; neither was there before the run. *)
Lemma Run_hosts_counterexample :
  (Contains "*.example.com" "*" = true
   /\ securevirtualhosts (fresh (snapshot [wildcard_tls])) !! "*.example.com" = None
   /\ is_Some (securevirtualhosts (run [wildcard_tls]) !! "*.example.com"))
  /\ (Contains "*" "*" = true
      /\ virtualhosts (fresh (snapshot [wildcard_tls])) !! "*" = None
      /\ is_Some (virtualhosts (run [wildcard_tls]) !! "*")).
Proof.
  split; (split; [reflexivity|]); (split; [reflexivity|]); vm_compute; eauto.
Qed.

(** The amended C3 on the same snapshot: the host that got a plaintext
    virtual host is the default host. *)
Lemma Run_hosts_witness :
  is_Some (virtualhosts (run [wildcard_tls]) !! "*")
  /\ (is_Some (virtualhosts (fresh (snapshot [wildcard_tls])) !! "*")
      \/ "*" = "*" \/ Contains "*" "*" = false).
Proof.
  assert (Hsome : is_Some (virtualhosts (run [wildcard_tls]) !! "*"))
    by (vm_compute; eauto).
  split; [exact Hsome|].
  destruct (Run_hosts (fresh (snapshot [wildcard_tls])) "*") as (_ & _ & Hplain).
  exact (Hplain Hsome).
Defined.

(** C1, as stated, fails: the rule of the ingress is for the host
    "*.example.com", which is not "*"; its path has a Service that
    resolves; a TLS block lists the host and passes both checks, so that
    Phase A creates a secure virtual host for it; and no route is attached
    to that secure virtual host, because the host of the rule holds a
    wildcard character. *)
Lemma Run_secure_attachment_counterexample :
  route_of (snapshot [wildcard_rule]) wildcard_rule (rule "*.example.com" "/")
    {| v1beta1.Path := "/"; v1beta1.Backend := to_kuard |} kuard
    (route wildcard_rule "/" kuard)
  /\ host_of (rule "*.example.com" "/") = "*.example.com"
  /\ "*.example.com" <> "*"
  /\ tls_listed (snapshot [wildcard_rule]) "*.example.com"
  /\ securevirtualhosts (fresh (snapshot [wildcard_rule])) !! "*.example.com" = None
  /\ is_Some (securevirtualhosts
                (computeSecureVirtualhosts (fresh (snapshot [wildcard_rule])))
              !! "*.example.com")
  /\ secure_routes (run [wildcard_rule]) "*.example.com" = [].
Proof.
  split; [|split; [reflexivity|split; [discriminate|split; [|split; [reflexivity|split]]]]].
  - repeat split.
    + now left.
    + left. now left.
    + eexists. split; [reflexivity|now left].
  - exists wildcard_rule,
      {| v1beta1.Hosts := ["*.example.com"]; v1beta1.SecretName := "tls-cert" |},
      "certificate".
    repeat split; now left.
  - vm_compute. eauto.
  - vm_compute. reflexivity.
Qed.

(** The amended C1 on the ingress with two TLS blocks: the route of the
    rule for the host of the block that passes is attached to its secure
    virtual host. *)
Lemma Run_secure_attachment_by_rule_witness :
  In (route two_blocks "/" kuard) (secure_routes (run [two_blocks]) "b.example.com").
Proof.
  destruct (Run_secure_attachment_by_rule (fresh (snapshot [two_blocks])) "b.example.com")
    as (attached & Hroutes & Hrule & _ & _ & Hentry).
  unfold run. rewrite Hroutes. apply in_or_app. right.
  apply in_map_iff. exists (two_blocks, route two_blocks "/" kuard).
  split; [reflexivity|].
  apply (Hrule two_blocks (rule "b.example.com" "/")
           {| v1beta1.Path := "/"; v1beta1.Backend := to_kuard |} kuard).
  - repeat split.
    + now left.
    + left. right. now left.
    + eexists. split; [reflexivity|now left].
  - reflexivity.
  - reflexivity.
  - split; [discriminate|]. apply Hentry. right.
    exists two_blocks,
      {| v1beta1.Hosts := ["b.example.com"]; v1beta1.SecretName := "tls-cert" |},
      "certificate".
    repeat split; [now left|right; now left|now left].
Defined.

(** C4, as stated, fails: the ingress allows HTTP, the path of its rule
    has a Service that resolves, and no route is attached to a plaintext
    virtual host, because the host of the rule holds a wildcard
    character; the run creates no plaintext virtual host at all. *)
Lemma Run_plaintext_attachment_counterexample :
  route_of (snapshot [wildcard_rule]) wildcard_rule (rule "*.example.com" "/")
    {| v1beta1.Path := "/"; v1beta1.Backend := to_kuard |} kuard
    (route wildcard_rule "/" kuard)
  /\ host_of (rule "*.example.com" "/") = "*.example.com"
  /\ (TLSRequired wildcard_rule || HTTPAllowed wildcard_rule) = true
  /\ plain_routes (run [wildcard_rule]) "*.example.com" = []
  /\ virtualhosts (run [wildcard_rule]) = ∅.
Proof.
  split; [|split; [reflexivity|split; [reflexivity|split]]].
  - repeat split.
    + now left.
    + left. now left.
    + eexists. split; [reflexivity|now left].
  - vm_compute. reflexivity.
  - vm_compute. reflexivity.
Qed.

(** The amended C4 on the ingress with two TLS blocks, which allows HTTP:
    the route of the rule for the host of the block that fails is attached
    to the plaintext virtual host of that host. *)
Lemma Run_plaintext_attachment_by_rule_witness :
  In (route two_blocks "/" kuard) (plain_routes (run [two_blocks]) "a.example.com").
Proof.
  destruct (Run_plaintext_attachment_by_rule (fresh (snapshot [two_blocks])) "a.example.com")
    as (attached & Hroutes & Hrule & _).
  unfold run. rewrite Hroutes. apply in_or_app. right.
  apply in_map_iff. exists (two_blocks, route two_blocks "/" kuard).
  split; [reflexivity|].
  apply (Hrule two_blocks (rule "a.example.com" "/")
           {| v1beta1.Path := "/"; v1beta1.Backend := to_kuard |} kuard).
  - repeat split.
    + now left.
    + left. now left.
    + eexists. split; [reflexivity|now left].
  - reflexivity.
  - reflexivity.
  - reflexivity.
Defined.

(** C6 on the ingress with two TLS blocks: the first block fails the secret
    lookup, leaves the secure virtual hosts as they were and records a
    diagnostic that names the secret. *)
Lemma computeSecureVirtualhosts_skips_failures_witness :
  tls_ok (snapshot [two_blocks])
         (two_blocks, {| v1beta1.Hosts := ["a.example.com"];
                         v1beta1.SecretName := "missing" |}) = false
  /\ securevirtualhosts
       (computeSecureVirtualhosts_tls two_blocks (fresh (snapshot [two_blocks]))
          {| v1beta1.Hosts := ["a.example.com"]; v1beta1.SecretName := "missing" |})
     = securevirtualhosts (fresh (snapshot [two_blocks])).
Proof.
  assert (Hfail : tls_ok (snapshot [two_blocks])
                    (two_blocks, {| v1beta1.Hosts := ["a.example.com"];
                                    v1beta1.SecretName := "missing" |}) = false)
    by reflexivity.
  split; [exact Hfail|].
  destruct (computeSecureVirtualhosts_skips_failures (fresh (snapshot [two_blocks])))
    as (Hblock & _).
  exact (proj1 (Hblock _ _ Hfail)).
Defined.

End ProcessorExamples.

(** * Further properties of cluster naming *)
Section NamingProperties.
Import gostrings gotime envoy naming services policies.

(** X1. With a bound that is not negative [Hashname] returns a string, and
    the string is not longer than the bound; outside the fast path it is
    strictly shorter than the bound or it is the hash cut to the bound. *)
Theorem Hashname_never_exceeds (l : Z) (s : list string) :
  0 <= l ->
  exists r : string,
    snd (Hashname l s) = Some r
    /\ len r <= l
    /\ (l <= len (Join s "/") ->
        len r < l \/ r = substring 0 (Z.to_nat (Z.min 64 l)) (hash_of s)).
Proof.
  intros Hl.
  destruct (Z.lt_ge_cases (len (Join s "/")) l) as [Hunder|Hover].
  - rewrite Hashname_fast by assumption. exists (Join s "/"). simpl.
    split; [reflexivity|]. split; lia.
  - rewrite Hashname_slow by assumption.
    destruct (Hashname_loop_result l s Hl (length s) ltac:(lia))
      as (c & _ & _ & [(_ & Hlen & Hsnd & _)|(_ & Hsnd & _)]).
    + exists (candidate l s c). split; [exact Hsnd|]. split; [lia|]. intros _. now left.
    + eexists. split; [exact Hsnd|]. split; [|intros _; now right].
      rewrite len_substring_0; [lia|]. rewrite len_hash_of. lia.
Qed.

Lemma Hashname_never_exceeds_witness :
  0 <= 12
  /\ exists r : string,
      snd (Hashname 12 ["default"; "kuard-service"]) = Some r
      /\ len r <= 12
      /\ (12 <= len (Join ["default"; "kuard-service"] "/") ->
          len r < 12
          \/ r = substring 0 (Z.to_nat (Z.min 64 12)) (hash_of ["default"; "kuard-service"])).
Proof.
  assert (H0 : 0 <= 12) by lia.
  split; [exact H0|]. exact (Hashname_never_exceeds 12 ["default"; "kuard-service"] H0).
Defined.

Lemma Hashname_loop_negative (l : Z) (hash : string) (k : nat) :
  l < 0 -> forall s : list string, snd (Hashname_loop l hash k s) = None.
Proof.
  intros Hl. induction k as [|n IH]; intros s.
  - simpl. rewrite min_l_r, Z.min_r by (pose proof (len_nonneg hash); lia).
    now rewrite slice_to_None.
  - simpl. destruct (s !! n) as [sn|]; [|reflexivity].
    destruct (slice_to hash shorthash) as [short|]; [|reflexivity].
    destruct (truncate _ sn short) as [t|]; [|reflexivity].
    destruct (Z.gtb_spec l (len (Join (<[n:=t]> s) "/"))) as [Hgt|_].
    + pose proof (len_nonneg (Join (<[n:=t]> s) "/")). lia.
    + apply IH.
Qed.

(** X2. With a negative bound [Hashname] never returns: every path ends in
    a slice expression with a negative index, which panics. *)
Theorem Hashname_negative_bound_panics (l : Z) (s : list string) :
  l < 0 -> snd (Hashname l s) = None.
Proof.
  intros Hl. unfold Hashname.
  destruct (Z.gtb_spec l (len (Join s "/"))) as [Hgt|_].
  - pose proof (len_nonneg (Join s "/")). lia.
  - now apply Hashname_loop_negative.
Qed.

Lemma Hashname_negative_bound_panics_witness :
  -1 < 0 /\ snd (Hashname (-1) ["default"; "kuard"]) = None.
Proof.
  assert (H0 : -1 < 0) by lia.
  split; [exact H0|]. exact (Hashname_negative_bound_panics (-1) ["default"; "kuard"] H0).
Defined.

(** X3. [truncate] panics exactly when the length it is given is negative;
    when it returns, the result has the length of the string or the length
    it was given, whichever is smaller, whatever the suffix is. *)
Theorem truncate_length (l : Z) (s suffix : string) :
  (truncate l s suffix = None <-> l < 0)
  /\ (forall t : string, truncate l s suffix = Some t -> len t = Z.min (len s) l).
Proof.
  destruct (Z.lt_ge_cases l 0) as [Hneg|Hpos].
  - assert (Hnone : truncate l s suffix = None).
    { unfold truncate. pose proof (len_nonneg s). pose proof (len_nonneg suffix).
      destruct (Z.geb_spec l (len s)); [lia|].
      destruct (Z.leb_spec l (len suffix)); [|lia].
      rewrite min_l_r, Z.min_l by lia. now apply slice_to_None. }
    split; [tauto|]. intros t Ht. congruence.
  - rewrite truncate_truncated by assumption. split.
    + split; [discriminate|lia].
    + intros t Ht. injection Ht as <-. now apply len_truncated.
Qed.

(** X4. A single segment that does not fit the bound is never shortened in
    the result: its truncation has exactly the length of the bound, which
    the strict test of the loop rejects, so the call returns the hash cut to
    the bound. *)
Theorem Hashname_single_segment (l : Z) (x : string) :
  0 <= l -> l <= len x ->
  snd (Hashname l [x]) = Some (substring 0 (Z.to_nat (Z.min 64 l)) (hash_of [x])).
Proof.
  intros Hl Hover.
  rewrite Hashname_slow by (simpl; assumption).
  destruct (Hashname_loop_result l [x] Hl (length [x]) ltac:(lia))
    as (c & _ & _ & [(Hlt & Hlen & _ & _)|(_ & Hsnd & _)]); [|exact Hsnd].
  exfalso. simpl in Hlt. assert (c = 0%nat) as -> by lia.
  unfold candidate, truncated_from in Hlen. simpl in Hlen.
  assert (Hb : budget_of l [x] = l) by (unfold budget_of; simpl; apply Z.quot_1_r).
  rewrite Hb, len_truncated in Hlen by lia. lia.
Qed.

Lemma Hashname_single_segment_witness :
  (0 <= 4 /\ 4 <= len "alpha") /\ snd (Hashname 4 ["alpha"]) = Some "8ed3".
Proof.
  assert (H0 : 0 <= 4) by lia.
  assert (H1 : 4 <= len "alpha") by (vm_compute; discriminate).
  split; [split; assumption|].
  rewrite (Hashname_single_segment 4 "alpha" H0 H1). vm_compute. reflexivity.
Defined.

(** X5. [Clustername] always returns a name; the name is shorter than 60
    characters and ends with a slash and the ten hexadecimal digits of the
    SHA-1 disambiguator; when namespace, name, port and disambiguator joined
    by slashes are shorter than 60 characters, the name is that string. *)
Theorem Clustername_returns (svc : dag.Service) :
  exists name : string,
    Clustername svc = Some name
    /\ len name < 60
    /\ (exists head : string, name = (head ++ "/" ++ disambiguator svc)%string)
    /\ (len (Join (segments svc) "/") < 60 -> name = Join (segments svc) "/").
Proof.
  destruct (Clustername_shape svc) as (head & Hshape).
  exists (head ++ "/" ++ disambiguator svc)%string.
  split; [exact Hshape|].
  assert (Hcall : Clustername svc = snd (Hashname 60 (segments svc))) by reflexivity.
  rewrite Hcall in Hshape.
  split; [|split; [eauto|]].
  - destruct (Z.lt_ge_cases (len (Join (segments svc) "/")) 60) as [Hunder|Hover].
    + rewrite Hashname_fast in Hshape by assumption. simpl in Hshape.
      injection Hshape as <-. exact Hunder.
    + rewrite Hashname_slow in Hshape by lia.
      destruct (Hashname_loop_result 60 (segments svc) ltac:(lia)
                  (length (segments svc)) ltac:(lia))
        as (c & _ & _ & [(_ & Hlen & Hsnd & _)|(_ & _ & Hall)]).
      * rewrite Hsnd in Hshape. injection Hshape as <-. exact Hlen.
      * exfalso. specialize (Hall 0%nat ltac:(simpl; lia)).
        assert (Hbudget : budget_of 60 (segments svc) = 15) by reflexivity.
        unfold candidate, truncated_from, segments in Hall.
        simpl take in Hall. simpl drop in Hall. simpl map in Hall.
        simpl Join in Hall. fold (segments svc) in Hall.
        rewrite !len_app, !len_truncated in Hall by lia.
        pose proof (len_disambiguator svc).
        change (len "/") with 1 in Hall. lia.
  - intros Hunder. rewrite Hashname_fast in Hshape by assumption. simpl in Hshape.
    now injection Hshape as <-.
Qed.

(** X6. The numeric fields of a health-check policy that are zero or
    negative leave no trace in the string that is hashed, which is then the
    strategy followed by the path; a policy with such fields and an empty
    path gives the name of the Service without any health check. *)
Theorem Clustername_unset_policy (svc : dag.Service) (hc : dag.HealthCheckPolicy) :
  dag.TimeoutSeconds hc <= 0 -> dag.IntervalSeconds hc <= 0 ->
  dag.UnhealthyThresholdCount hc <= 0 -> dag.HealthyThresholdCount hc <= 0 ->
  Clustername_buf (with_policy svc (Some hc))
  = (dag.LoadBalancerStrategy svc ++ dag.Path hc)%string
  /\ (dag.Path hc = "" ->
      Clustername (with_policy svc (Some hc)) = Clustername (with_policy svc None)).
Proof.
  intros Ht Hi Hu Hh.
  assert (Hbuf : Clustername_buf (with_policy svc (Some hc))
                 = (dag.LoadBalancerStrategy svc ++ dag.Path hc)%string).
  { unfold Clustername_buf, with_policy. simpl.
    destruct (Z.gtb_spec (dag.TimeoutSeconds hc) 0); [lia|].
    destruct (Z.gtb_spec (dag.IntervalSeconds hc) 0); [lia|].
    destruct (Z.gtb_spec (dag.UnhealthyThresholdCount hc) 0); [lia|].
    destruct (Z.gtb_spec (dag.HealthyThresholdCount hc) 0); [lia|].
    reflexivity. }
  split; [exact Hbuf|].
  intros Hpath. unfold Clustername. rewrite Hbuf, Hpath, app_empty_r_string.
  reflexivity.
Qed.

Lemma Clustername_unset_policy_witness :
  (dag.TimeoutSeconds no_policy <= 0 /\ dag.IntervalSeconds no_policy <= 0
   /\ dag.UnhealthyThresholdCount no_policy <= 0
   /\ dag.HealthyThresholdCount no_policy <= 0 /\ dag.Path no_policy = "")
  /\ Clustername (with_policy echo (Some no_policy)) = Clustername (with_policy echo None).
Proof.
  assert (Ht : dag.TimeoutSeconds no_policy <= 0) by (simpl; lia).
  assert (Hi : dag.IntervalSeconds no_policy <= 0) by (simpl; lia).
  assert (Hu : dag.UnhealthyThresholdCount no_policy <= 0) by (simpl; lia).
  assert (Hh : dag.HealthyThresholdCount no_policy <= 0) by (simpl; lia).
  assert (Hp : dag.Path no_policy = "") by reflexivity.
  split; [repeat split; assumption|].
  exact (proj2 (Clustername_unset_policy echo no_policy Ht Hi Hu Hh) Hp).
Defined.


(** X13. The threshold counts are written one after the other without a
    separator, so policies that differ only in them can get the same name:
    an unhealthy threshold of 1 with a healthy threshold of 23 and an
    unhealthy threshold of 12 with a healthy threshold of 3 do, for every
    Service and whatever the other fields of the policy are. *)
Theorem Clustername_threshold_collision (svc : dag.Service) (hc : dag.HealthCheckPolicy) :
  Clustername (with_policy svc (Some (with_thresholds hc 1 23)))
  = Clustername (with_policy svc (Some (with_thresholds hc 12 3))).
Proof.
  assert (Hbuf : Clustername_buf (with_policy svc (Some (with_thresholds hc 1 23)))
                 = Clustername_buf (with_policy svc (Some (with_thresholds hc 12 3)))).
  { unfold Clustername_buf, with_policy, with_thresholds. simpl.
    change (Itoa (wrap64 1)) with "1". change (Itoa (wrap64 23)) with "23".
    change (Itoa (wrap64 12)) with "12". change (Itoa (wrap64 3)) with "3".
    rewrite !app_assoc_string. reflexivity. }
  unfold Clustername. rewrite Hbuf. reflexivity.
Qed.

(** ** Ports *)

Lemma has_byte_app (c : ascii) (a b : string) :
  has_byte c (a ++ b) = has_byte c a || has_byte c b.
Proof.
  induction a as [|x a IH]; [reflexivity|].
  change (has_byte c (String x (a ++ b)) = has_byte c (String x a) || has_byte c b).
  simpl. destruct (Ascii.eqb c x); [reflexivity|exact IH].
Qed.

Lemma after_last_slash_app (u p : string) :
  has_byte "/" p = false -> after_last_slash (u ++ String "/" p) = p.
Proof.
  intros Hp. induction u as [|c u IH].
  - change (after_last_slash (String "/" p) = p). simpl. now rewrite Hp.
  - change (after_last_slash (String c (u ++ String "/" p)) = p). simpl.
    rewrite has_byte_app. simpl. rewrite orb_true_r. exact IH.
Qed.

Lemma digits_app (fuel : nat) :
  forall (v : Z) (acc : string), digits fuel v acc = (digits fuel v "" ++ acc)%string.
Proof.
  induction fuel as [|fuel IH]; intros v acc; simpl; [reflexivity|].
  destruct (v >? 0); [|reflexivity].
  rewrite (IH _ (String _ acc)), (IH _ (String _ "")).
  now rewrite app_assoc_string.
Qed.

Lemma fmtInt_app (v : Z) (acc : string) : fmtInt v acc = (fmtInt v "" ++ acc)%string.
Proof.
  unfold fmtInt. destruct (v =? 0); [reflexivity|apply digits_app].
Qed.

Lemma fmtInt_inj (v w : Z) : 0 <= v -> 0 <= w -> fmtInt v "" = fmtInt w "" -> v = w.
Proof.
  intros Hv Hw Heq.
  assert (Hs : fmtInt v "s" = fmtInt w "s").
  { rewrite (fmtInt_app v "s"), (fmtInt_app w "s"). now rewrite Heq. }
  apply (f_equal (fun str => seconds str 0 0)) in Hs.
  rewrite !seconds_fmtInt in Hs by assumption. simpl in Hs. lia.
Qed.

Lemma has_slash_digits (fuel : nat) :
  forall (v : Z) (acc : string),
    has_byte "/" (digits fuel v acc) = has_byte "/" acc.
Proof.
  induction fuel as [|fuel IH]; intros v acc; simpl; [reflexivity|].
  destruct (v >? 0); [|reflexivity].
  rewrite IH.
  assert (Hd : 0 <= v mod 10 < 10) by (apply Z.mod_pos_bound; lia).
  assert (v mod 10 = 0 \/ v mod 10 = 1 \/ v mod 10 = 2 \/ v mod 10 = 3 \/ v mod 10 = 4
          \/ v mod 10 = 5 \/ v mod 10 = 6 \/ v mod 10 = 7 \/ v mod 10 = 8
          \/ v mod 10 = 9) as Hcases by lia.
  repeat (destruct Hcases as [->|Hcases]; [reflexivity|]). rewrite Hcases. reflexivity.
Qed.

Lemma has_slash_fmtInt (v : Z) : has_byte "/" (fmtInt v "") = false.
Proof.
  unfold fmtInt. destruct (v =? 0); [reflexivity|]. now rewrite has_slash_digits.
Qed.

(** A number below [10^15] is written with at most fifteen digits. *)
Lemma len_digits (fuel : nat) :
  forall (v : Z) (acc : string) (n : nat),
    0 <= v < 10 ^ Z.of_nat n ->
    len (digits fuel v acc) <= Z.of_nat n + len acc.
Proof.
  induction fuel as [|fuel IH]; intros v acc n Hv; simpl; [lia|].
  destruct (Z.gtb_spec v 0) as [Hpos|Hzero]; [|lia].
  destruct n as [|n]; [simpl in Hv; lia|].
  rewrite Nat2Z.inj_succ, Z.pow_succ_r in Hv by lia.
  assert (Hdiv : 0 <= v / 10 < 10 ^ Z.of_nat n).
  { split; [apply Z.div_pos; lia|]. apply Z.div_lt_upper_bound; lia. }
  specialize (IH (v / 10) (String (digit (v mod 10)) acc) n Hdiv).
  assert (Hlen : len (String (digit (v mod 10)) acc) = 1 + len acc)
    by (unfold len; simpl String.length; lia).
  lia.
Qed.

Lemma len_fmtInt (v : Z) : 0 <= v < 10 ^ 15 -> len (fmtInt v "") <= 15.
Proof.
  intros Hv. unfold fmtInt. destruct (v =? 0); [vm_compute; discriminate|].
  pose proof (len_digits (S (Z.to_nat (Z.log2 v))) v "" 15 Hv) as Hlen.
  change (len "") with 0 in Hlen. lia.
Qed.

(** With a port of at most fifteen digits the name is made of four
    segments, of which the last two are the port and the disambiguator. *)
Lemma Clustername_port_shape (svc : dag.Service) :
  0 <= dag.Port svc < 10 ^ 15 ->
  exists x y : string,
    Clustername svc
    = Some (Join [x; y; fmtInt (dag.Port svc) ""; disambiguator svc] "/").
Proof.
  intros Hport.
  assert (Hcall : Clustername svc = snd (Hashname 60 (segments svc))) by reflexivity.
  assert (Hitoa : Itoa (wrap64 (dag.Port svc)) = fmtInt (dag.Port svc) "").
  { rewrite wrap64_small by lia. unfold Itoa.
    destruct (Z.ltb_spec (dag.Port svc) 0); [lia|reflexivity]. }
  assert (Hsegs : segments svc
                  = [dag.Namespace svc; dag.Name svc; fmtInt (dag.Port svc) "";
                     disambiguator svc])
    by (unfold segments; now rewrite Hitoa).
  rewrite Hcall, Hsegs. clear Hcall.
  set (port := fmtInt (dag.Port svc) ""). set (d := disambiguator svc).
  set (s := [dag.Namespace svc; dag.Name svc; port; d]).
  pose proof (len_disambiguator svc) as Hd. fold d in Hd.
  pose proof (len_fmtInt (dag.Port svc) Hport) as Hp. fold port in Hp.
  assert (Hbudget : budget_of 60 s = 15) by reflexivity.
  assert (Hfitd : truncated (budget_of 60 s) (short_of s) d = d)
    by (apply truncated_id_iff; lia).
  assert (Hfitp : truncated (budget_of 60 s) (short_of s) port = port)
    by (apply truncated_id_iff; lia).
  destruct (Z.lt_ge_cases (len (Join s "/")) 60) as [Hunder|Hover].
  - rewrite Hashname_fast by assumption. simpl. eauto.
  - rewrite Hashname_slow by lia.
    destruct (Hashname_loop_result 60 s ltac:(lia) (length s) ltac:(lia))
      as (c & Hc & _ & [(Hlt & _ & Hsnd & _)|(_ & _ & Hall)]).
    + rewrite Hsnd. unfold candidate.
      destruct c as [|[|[|[|c]]]]; [| | | |simpl in Hlt; lia];
        unfold truncated_from; simpl take; simpl drop; simpl map;
        rewrite ?Hfitd, ?Hfitp; eauto.
    + exfalso. specialize (Hall 0%nat ltac:(simpl; lia)).
      unfold candidate, truncated_from in Hall.
      simpl take in Hall. simpl drop in Hall. simpl map in Hall.
      simpl Join in Hall. rewrite !len_app, !len_truncated in Hall by lia.
      change (len "/") with 1 in Hall. lia.
Qed.

(** X14. Two Services that differ only in the port, with ports of at most
    fifteen digits, never get the same cluster name, however long their
    namespace and name are: the port is the third segment, it fits the
    budget, and it is written in digits only. *)
Theorem Clustername_distinguishes_ports (svc : dag.Service) (p1 p2 : Z) :
  0 <= p1 < 10 ^ 15 -> 0 <= p2 < 10 ^ 15 -> p1 <> p2 ->
  Clustername (with_port svc p1) <> Clustername (with_port svc p2).
Proof.
  intros H1 H2 Hne Heq.
  destruct (Clustername_port_shape (with_port svc p1) H1) as (x1 & y1 & E1).
  destruct (Clustername_port_shape (with_port svc p2) H2) as (x2 & y2 & E2).
  rewrite E1, E2 in Heq. injection Heq as Heq. simpl in Heq.
  assert (Hd : disambiguator (with_port svc p1) = disambiguator (with_port svc p2))
    by reflexivity.
  rewrite Hd in Heq.
  assert (Hsplit : forall x y p d : string,
             (x ++ "/" ++ y ++ "/" ++ p ++ "/" ++ d)%string
             = ((x ++ "/" ++ y ++ "/" ++ p) ++ "/" ++ d)%string)
    by (intros; now rewrite !app_assoc_string).
  rewrite !Hsplit in Heq.
  apply app_inv_tail_len in Heq; [|reflexivity]. destruct Heq as [Heq _].
  assert (Hhead : forall x y p : string,
             (x ++ "/" ++ y ++ "/" ++ p)%string = ((x ++ "/" ++ y) ++ String "/" p)%string)
    by (intros; now rewrite !app_assoc_string).
  rewrite !Hhead in Heq.
  apply (f_equal after_last_slash) in Heq.
  rewrite !after_last_slash_app in Heq by apply has_slash_fmtInt.
  apply Hne. apply fmtInt_inj; [lia|lia|exact Heq].
Qed.

Lemma Clustername_distinguishes_ports_witness :
  (0 <= 80 < 10 ^ 15 /\ 0 <= 443 < 10 ^ 15 /\ 80 <> 443)
  /\ Clustername (with_port echo 80) <> Clustername (with_port echo 443).
Proof.
  assert (H1 : 0 <= 80 < 10 ^ 15) by lia.
  assert (H2 : 0 <= 443 < 10 ^ 15) by lia.
  assert (Hne : 80 <> 443) by lia.
  split; [repeat split; lia|].
  exact (Clustername_distinguishes_ports echo 80 443 H1 H2 Hne).
Defined.

End NamingProperties.

(** * Further properties of the Ingress processor *)
Section ProcessorProperties.
Import gostrings dag processor graph rules.
Context `{Collaborators}.

Lemma diagnostics_attach (b : Builder) (ev : v1beta1.Ingress * string * Route) :
  diagnostics (attach b ev) = diagnostics b.
Proof.
  destruct ev as [[ing host] r]. unfold attach, lookupVirtualHost.
  destruct (TLSRequired ing || HTTPAllowed ing);
    destruct (virtualhosts b !! host); simpl;
    destruct (securevirtualhosts b !! host);
    destruct (negb (String.eqb host "*")); reflexivity.
Qed.

(** X7. Phase B records no diagnostic and leaves the snapshot alone: a rule
    with a wildcard host, a rule without paths and a path whose Service
    does not resolve are dropped without a trace, so the diagnostics of a
    run are those of Phase A. *)
Theorem computeIngresses_records_nothing (b : Builder) :
  diagnostics (computeIngresses b) = diagnostics b
  /\ Source (computeIngresses b) = Source b
  /\ diagnostics (Run b) = diagnostics (computeSecureVirtualhosts b).
Proof.
  assert (Hdiag : forall b' : Builder, diagnostics (computeIngresses b') = diagnostics b').
  { intros b'. rewrite computeIngresses_attach.
    apply (foldl_preserves diagnostics). intros a ev. apply diagnostics_attach. }
  split; [apply Hdiag|]. split; [|apply Hdiag].
  rewrite computeIngresses_attach. apply foldl_attach_Source.
Qed.

(** ** The entries of the secure virtual hosts *)

Lemma entry_attach (b : Builder) (ev : v1beta1.Ingress * string * Route)
    (h : string) :
  secure_entry (attach b ev) h = secure_entry b h.
Proof.
  destruct ev as [[ing host] r]. unfold secure_entry.
  rewrite securevirtualhosts_attach.
  destruct (securevirtualhosts b !! host) as [svh|] eqn:Hsvh; [|reflexivity].
  destruct (negb (String.eqb host "*")); [|reflexivity].
  destruct (decide (host = h)) as [->|Hne].
  - now rewrite lookup_insert_eq, Hsvh.
  - now rewrite lookup_insert_ne by exact Hne.
Qed.

Lemma entry_foldl_attach (evs : list (v1beta1.Ingress * string * Route))
    (b : Builder) (h : string) :
  secure_entry (foldl attach b evs) h = secure_entry b h.
Proof.
  apply (foldl_preserves (fun b => secure_entry b h)). intros a ev.
  apply entry_attach.
Qed.

Lemma entry_secure_host (ing : v1beta1.Ingress) (sec : Secret) (b : Builder)
    (host h : string) :
  secure_entry (secure_host ing sec b host) h
  = if decide (host = h)
    then Some (name_of (secure_entry b h) h, Some sec, min_tls ing)
    else secure_entry b h.
Proof.
  unfold secure_entry, secure_host, lookupSecureVirtualHost, name_of, min_tls.
  destruct (decide (host = h)) as [->|Hne].
  - destruct (securevirtualhosts b !! h) as [svh|] eqn:Hsvh; simpl.
    + now rewrite lookup_alter_eq, Hsvh.
    + now rewrite lookup_alter_eq, lookup_insert_eq.
  - destruct (securevirtualhosts b !! host) as [svh|] eqn:Hsvh; simpl.
    + now rewrite lookup_alter_ne by exact Hne.
    + now rewrite lookup_alter_ne, lookup_insert_ne by exact Hne.
Qed.

Lemma name_of_idem (old : option (string * option Secret * Z)) (sec : option Secret)
    (ver : Z) (h : string) :
  name_of (Some (name_of old h, sec, ver)) h = name_of old h.
Proof. reflexivity. Qed.

(** The hosts of a block that passed: each of them gets the secret and the
    version of the block, the others keep what they had. *)
Lemma entry_secure_hosts (ing : v1beta1.Ingress) (sec : Secret)
    (hosts : list string) :
  forall (b : Builder) (h : string),
    secure_entry (foldl (secure_host ing sec) b hosts) h
    = if in_dec string_dec h hosts
      then Some (name_of (secure_entry b h) h, Some sec, min_tls ing)
      else secure_entry b h.
Proof.
  induction hosts as [|host hosts IH]; intros b h.
  - reflexivity.
  - change (foldl (secure_host ing sec) b (host :: hosts))
      with (foldl (secure_host ing sec) (secure_host ing sec b host) hosts).
    rewrite IH, entry_secure_host.
    destruct (in_dec string_dec h (host :: hosts)) as [Hin'|Hout'];
      destruct (in_dec string_dec h hosts) as [Hin|Hout];
      destruct (decide (host = h)) as [->|Hne];
      simpl in *; try tauto; try reflexivity.
Qed.

(** One TLS block, seen from the entry of [h]. *)
Lemma entry_tls_step (b : Builder) (blk : v1beta1.Ingress * v1beta1.IngressTLS)
    (h : string) :
  (tls_ok (Source b) blk = false \/ ~ In h (v1beta1.Hosts blk.2) ->
   secure_entry (tls_step b blk) h = secure_entry b h)
  /\ (forall sec : Secret,
        tls_ok (Source b) blk = true -> In h (v1beta1.Hosts blk.2) ->
        LookupSecret (Source b) (secret_name blk.1 blk.2) validSecret = inl sec ->
        secure_entry (tls_step b blk) h
        = Some (name_of (secure_entry b h) h, Some sec, min_tls blk.1)).
Proof.
  destruct (tls_ok (Source b) blk) eqn:Hok.
  - destruct (tls_step_ok b blk Hok) as (sec & Hsec & ->).
    rewrite entry_secure_hosts. split.
    + intros [Hfalse|Hout]; [discriminate|].
      destruct (in_dec string_dec h (v1beta1.Hosts blk.2)); tauto.
    + intros sec' _ Hin Hsec'. rewrite Hsec in Hsec'. injection Hsec' as <-.
      destruct (in_dec string_dec h (v1beta1.Hosts blk.2)); tauto.
  - rewrite (tls_step_fail b blk Hok). split; [reflexivity|discriminate].
Qed.

Lemma tls_ok_checks (src : KubernetesCache) (blk : v1beta1.Ingress * v1beta1.IngressTLS) :
  tls_ok src blk = true ->
  exists sec : Secret,
    LookupSecret src (secret_name blk.1 blk.2) validSecret = inl sec
    /\ DelegationPermitted src (secret_name blk.1 blk.2) (v1beta1.Namespace blk.1) = true.
Proof.
  unfold tls_ok. destruct (LookupSecret _ _ _) as [sec|]; [|discriminate].
  intros Hd. exists sec. auto.
Qed.

Lemma backed_tls_steps (src : KubernetesCache)
    (blks : list (v1beta1.Ingress * v1beta1.IngressTLS)) :
  (forall blk, In blk blks -> In blk (tls_blocks src)) ->
  forall b : Builder,
    Source b = src ->
    (forall h e, secure_entry b h = Some e -> backed src h e) ->
    forall h e, secure_entry (foldl tls_step b blks) h = Some e -> backed src h e.
Proof.
  induction blks as [|blk blks IH]; intros Hsub b Hsrc Hinv; [exact Hinv|].
  change (foldl tls_step b (blk :: blks)) with (foldl tls_step (tls_step b blk) blks).
  apply IH.
  - intros blk' Hin. apply Hsub. now right.
  - now rewrite (proj1 (tls_step_frame b blk)).
  - intros h e He.
    destruct (entry_tls_step b blk h) as [Hkeep Hset].
    destruct (tls_ok (Source b) blk) eqn:Hok.
    + destruct (in_dec string_dec h (v1beta1.Hosts blk.2)) as [Hin|Hout].
      * destruct (tls_ok_checks _ _ Hok) as (sec & Hsec & Hdeleg).
        rewrite (Hset sec eq_refl Hin Hsec) in He. injection He as <-.
        split.
        -- simpl. destruct (secure_entry b h) as [old|] eqn:Hold; [|reflexivity].
           simpl. exact (proj1 (Hinv h old Hold)).
        -- exists blk, sec. rewrite <- Hsrc. simpl.
           repeat split; try assumption. rewrite Hsrc. apply Hsub. now left.
      * rewrite Hkeep in He by now right. now apply Hinv.
    + rewrite Hkeep in He by now left. now apply Hinv.
Qed.

(** X8. On a run from a Builder without any virtual host, every secure
    virtual host is named after its key and carries a secret: the one the
    lookup returned for a TLS block of the snapshot that lists the host,
    passed validation and the delegation check; its minimum TLS version is
    the one derived from the annotations of the ingress of that block. *)
Theorem Run_secure_hosts_are_backed (src : KubernetesCache) (h : string)
    (svh : SecureVirtualHost) :
  securevirtualhosts (Run (fresh src)) !! h = Some svh ->
  vhost_Name (svhost_VirtualHost svh) = h
  /\ exists (blk : v1beta1.Ingress * v1beta1.IngressTLS) (sec : Secret),
      In blk (tls_blocks src) /\ In h (v1beta1.Hosts blk.2)
      /\ LookupSecret src (secret_name blk.1 blk.2) validSecret = inl sec
      /\ DelegationPermitted src (secret_name blk.1 blk.2) (v1beta1.Namespace blk.1) = true
      /\ svhost_Secret svh = Some sec
      /\ svhost_MinTLSVersion svh = min_tls blk.1.
Proof.
  intros Hsvh.
  assert (He : secure_entry (Run (fresh src)) h
               = Some (vhost_Name (svhost_VirtualHost svh), svhost_Secret svh,
                       svhost_MinTLSVersion svh))
    by (unfold secure_entry; now rewrite Hsvh).
  rewrite Run_attach, entry_foldl_attach, computeSecureVirtualhosts_blocks in He.
  apply (backed_tls_steps src (tls_blocks src)) in He; [exact He|auto|reflexivity|].
  intros h' e' He'. unfold secure_entry in He'. simpl in He'.
  rewrite lookup_empty in He'. discriminate.
Qed.

(** X9. When several TLS blocks that pass list the same host, the last one
    in the order of the snapshot decides: after a run the secure virtual
    host of [h] carries the secret and the minimum TLS version of the last
    passing block that lists [h]. *)
Theorem Run_last_block_wins (src : KubernetesCache)
    (before after : list (v1beta1.Ingress * v1beta1.IngressTLS))
    (blk : v1beta1.Ingress * v1beta1.IngressTLS) (sec : Secret) (h : string)
    (b : Builder) :
  Source b = src ->
  tls_blocks src = (before ++ blk :: after)%list ->
  LookupSecret src (secret_name blk.1 blk.2) validSecret = inl sec ->
  DelegationPermitted src (secret_name blk.1 blk.2) (v1beta1.Namespace blk.1) = true ->
  In h (v1beta1.Hosts blk.2) ->
  (forall blk', In blk' after -> tls_ok src blk' = true -> ~ In h (v1beta1.Hosts blk'.2)) ->
  exists svh : SecureVirtualHost,
    securevirtualhosts (Run b) !! h = Some svh
    /\ svhost_Secret svh = Some sec
    /\ svhost_MinTLSVersion svh = min_tls blk.1.
Proof.
  intros Hsrc Hblocks Hsec Hdeleg Hin Hafter.
  assert (Hok : tls_ok src blk = true) by (unfold tls_ok; now rewrite Hsec).
  assert (He : exists name, secure_entry (Run b) h = Some (name, Some sec, min_tls blk.1)).
  { rewrite Run_attach, entry_foldl_attach, computeSecureVirtualhosts_blocks.
    rewrite Hsrc, Hblocks, foldl_app.
    change (foldl tls_step (foldl tls_step b before) (blk :: after))
      with (foldl tls_step (tls_step (foldl tls_step b before) blk) after).
    set (b1 := foldl tls_step b before).
    assert (Hsrc1 : Source b1 = src) by (unfold b1; now rewrite tls_steps_Source).
    assert (Hstart : secure_entry (tls_step b1 blk) h
                     = Some (name_of (secure_entry b1 h) h, Some sec, min_tls blk.1)).
    { apply (proj2 (entry_tls_step b1 blk h)); rewrite ?Hsrc1; assumption. }
    assert (Hsrc2 : Source (tls_step b1 blk) = src)
      by (now rewrite (proj1 (tls_step_frame b1 blk))).
    revert Hstart Hsrc2. generalize (tls_step b1 blk) as b2.
    generalize (name_of (secure_entry b1 h) h) as name.
    clear Hblocks. induction after as [|blk' after IH]; intros name b2 Hstart Hsrc2.
    - exists name. exact Hstart.
    - change (foldl tls_step b2 (blk' :: after))
        with (foldl tls_step (tls_step b2 blk') after).
      apply (IH (fun x Hx => Hafter x (or_intror Hx)) name).
      + rewrite (proj1 (entry_tls_step b2 blk' h)); [exact Hstart|].
        rewrite Hsrc2. destruct (tls_ok src blk') eqn:Hok'; [right|now left].
        apply Hafter; [now left|exact Hok'].
      + now rewrite (proj1 (tls_step_frame b2 blk')). }
  destruct He as (name & He). unfold secure_entry in He.
  destruct (securevirtualhosts (Run b) !! h) as [svh|]; [|discriminate].
  simpl in He. injection He as _ Hs Hv. exists svh. auto.
Qed.

(** ** The plaintext virtual hosts *)

Lemma plain_hosts_foldl_attach (evs : list (v1beta1.Ingress * string * Route)) :
  forall b : Builder,
    (forall h v, virtualhosts b !! h = Some v -> vhost_Name v = h /\ routes v <> []) ->
    forall h v, virtualhosts (foldl attach b evs) !! h = Some v ->
                vhost_Name v = h /\ routes v <> [].
Proof.
  induction evs as [|[[ing host] r] evs IH]; intros b Hinv; [exact Hinv|].
  change (foldl attach b ((ing, host, r) :: evs))
    with (foldl attach (attach b (ing, host, r)) evs).
  apply IH. intros h' v'. rewrite virtualhosts_attach.
  destruct (plaintext ing); [|apply Hinv].
  destruct (decide (host = h')) as [->|Hne].
  - rewrite lookup_alter_eq. unfold lookupVirtualHost.
    destruct (virtualhosts b !! h') as [old|] eqn:Hold; simpl.
    + rewrite Hold. simpl. intros Heq. injection Heq as <-. simpl.
      split; [exact (proj1 (Hinv h' old Hold))|].
      intros Hnil. apply app_eq_nil in Hnil. destruct Hnil as [_ Hnil]. discriminate.
    + rewrite lookup_insert_eq. simpl. intros Heq. injection Heq as <-. simpl.
      split; [reflexivity|discriminate].
  - rewrite lookup_alter_ne by exact Hne. unfold lookupVirtualHost.
    destruct (virtualhosts b !! host) as [old|] eqn:Hold; simpl; [apply Hinv|].
    rewrite lookup_insert_ne by exact Hne. apply Hinv.
Qed.

(** X10. On a run from a Builder without any virtual host, every plaintext
    virtual host is named after its key and holds at least one route: Phase
    B creates one only to attach a route to it. *)
Theorem Run_plaintext_hosts_have_routes (src : KubernetesCache) (h : string)
    (v : VirtualHost) :
  virtualhosts (Run (fresh src)) !! h = Some v ->
  vhost_Name v = h /\ routes v <> [].
Proof.
  rewrite Run_attach. apply plain_hosts_foldl_attach.
  intros h' v'. rewrite computeSecureVirtualhosts_blocks, tls_steps_virtualhosts.
  simpl. rewrite lookup_empty. discriminate.
Qed.

(** ** The routes *)

Lemma stringOrDefault_nonempty (s def : string) :
  def <> "" -> stringOrDefault s def <> "".
Proof.
  intros Hdef. unfold stringOrDefault.
  destruct (String.eqb_spec s ""); assumption.
Qed.

(** Where a route that Phase B builds comes from. *)
Lemma built_route (src : KubernetesCache) (ing : v1beta1.Ingress) (h : string)
    (r : Route) :
  In (ing, h, r) (built src) ->
  exists (rule : v1beta1.IngressRule) (httppath : v1beta1.HTTPIngressPath) (s : Service),
    In ing (ingresses src)
    /\ In rule (rulesFromSpec (v1beta1.Spec ing))
    /\ In httppath (httppaths rule)
    /\ Contains (v1beta1.Host rule) "*" = false
    /\ h = (if String.eqb (v1beta1.Host rule) "" then "*" else v1beta1.Host rule)
    /\ LookupService src
         {| types.Name := v1beta1.ServiceName (v1beta1.Backend httppath);
            types.Namespace := v1beta1.Namespace ing |}
         (v1beta1.ServicePort (v1beta1.Backend httppath)) = inl s
    /\ r = route ing (stringOrDefault (v1beta1.Path httppath) "/") s.
Proof.
  unfold built. rewrite in_flat_map. intros (ing' & Hing & Hin).
  rewrite in_flat_map in Hin. destruct Hin as (rule & Hrule & Hin).
  unfold rule_routes in Hin.
  destruct (Contains (v1beta1.Host rule) "*") eqn:Hwild; [destruct Hin|].
  rewrite in_flat_map in Hin. destruct Hin as (hp & Hhp & Hin).
  unfold path_routes in Hin.
  destruct (LookupService _ _ _) as [s|] eqn:Hs; [|destruct Hin].
  destruct Hin as [Heq|[]]. injection Heq as -> <- <-.
  exists rule, hp, s. repeat split; auto.
Qed.

(** X11. On a run from a Builder without any virtual host, every route of
    every virtual host, plaintext or secure, was made by [route] for an
    ingress of the snapshot, from a path and the Service that the lookup
    returned for the backend of that path in the namespace of the ingress;
    its path is never empty, its only cluster is that Service, and its
    host is "*" or holds no wildcard character. *)
Theorem Run_routes_come_from_route (src : KubernetesCache) (h : string) (r : Route) :
  In r (plain_routes (Run (fresh src)) h) \/ In r (secure_routes (Run (fresh src)) h) ->
  exists (ing : v1beta1.Ingress) (httppath : v1beta1.HTTPIngressPath) (s : Service),
    In ing (ingresses src)
    /\ LookupService src
         {| types.Name := v1beta1.ServiceName (v1beta1.Backend httppath);
            types.Namespace := v1beta1.Namespace ing |}
         (v1beta1.ServicePort (v1beta1.Backend httppath)) = inl s
    /\ r = route ing (stringOrDefault (v1beta1.Path httppath) "/") s
    /\ stringOrDefault (v1beta1.Path httppath) "/" <> ""
    /\ Clusters r = [{| Upstream := s; cluster_Protocol := Protocol s |}]
    /\ (h = "*" \/ Contains h "*" = false).
Proof.
  intros Hr.
  assert (Hbuilt : exists ing, In (ing, h, r) (built src)).
  { destruct Hr as [Hplain|Hsecure].
    - rewrite Run_attach, plain_routes_foldl_attach in Hplain.
      apply in_app_or in Hplain. destruct Hplain as [Hold|Hnew].
      + unfold plain_routes in Hold.
        rewrite computeSecureVirtualhosts_blocks, tls_steps_virtualhosts in Hold.
        simpl in Hold. rewrite lookup_empty in Hold. destruct Hold.
      + change (Source (fresh src)) with src in Hnew.
        apply in_routes_for in Hnew. destruct Hnew as (ing & Hin & _). eauto.
    - rewrite Run_attach, secure_routes_foldl_attach in Hsecure.
      apply in_app_or in Hsecure. destruct Hsecure as [Hold|Hnew].
      + rewrite computeSecureVirtualhosts_blocks, secure_routes_tls_steps in Hold.
        unfold secure_routes in Hold. simpl in Hold.
        rewrite lookup_empty in Hold. destruct Hold.
      + destruct (_ && _); [|destruct Hnew].
        change (Source (fresh src)) with src in Hnew.
        apply in_routes_for in Hnew. destruct Hnew as (ing & Hin & _). eauto. }
  destruct Hbuilt as (ing & Hin).
  pose proof (built_host src (ing, h, r) Hin) as Hhost.
  apply built_route in Hin.
  destruct Hin as (rule & hp & s & Hing & _ & _ & _ & _ & Hs & ->).
  exists ing, hp, s. repeat split; try assumption.
  now apply stringOrDefault_nonempty.
Qed.

(** X12. On a run from a Builder without any virtual host, a route of the
    plaintext virtual host of [h] is the route that [route] makes for an
    ingress of the snapshot from a path of one of its rules, a rule that is
    filed under [h] and whose host holds no wildcard character, and from
    the Service the backend of that path resolves to; that ingress
    requires TLS or allows HTTP, the route carries the TLS requirement of
    that ingress as its HTTPS-upgrade flag, and so it upgrades to HTTPS or
    that ingress allows plaintext HTTP. *)
Theorem Run_plaintext_upgrades_or_allowed (src : KubernetesCache) (h : string)
    (r : Route) :
  In r (plain_routes (Run (fresh src)) h) ->
  exists (ing : v1beta1.Ingress) (rule : v1beta1.IngressRule)
         (httppath : v1beta1.HTTPIngressPath) (s : Service),
    In ing (ingresses src)
    /\ rule_of ing rule
    /\ path_of rule httppath
    /\ resolves src ing httppath s
    /\ r = route ing (path_string httppath) s
    /\ Contains (v1beta1.Host rule) "*" = false
    /\ h = host_of rule
    /\ (TLSRequired ing || HTTPAllowed ing) = true
    /\ HTTPSUpgrade r = TLSRequired ing
    /\ (HTTPSUpgrade r = true \/ HTTPAllowed ing = true).
Proof.
  intros Hplain.
  rewrite Run_attach, plain_routes_foldl_attach in Hplain.
  apply in_app_or in Hplain. destruct Hplain as [Hold|Hnew].
  - unfold plain_routes in Hold.
    rewrite computeSecureVirtualhosts_blocks, tls_steps_virtualhosts in Hold.
    simpl in Hold. rewrite lookup_empty in Hold. destruct Hold.
  - change (Source (fresh src)) with src in Hnew.
    apply in_routes_for in Hnew. destruct Hnew as (ing & Hin & Hflag).
    apply built_declared in Hin.
    destruct Hin as (rule & hp & s & (Hing & Hrule & Hhp & Hs & ->) & Hwild & ->).
    exists ing, rule, hp, s. unfold plaintext in Hflag.
    repeat (split; [assumption || reflexivity|]).
    simpl. destruct (TLSRequired ing); [now left|now right].
Qed.

(** X15. The set of secure virtual hosts is stable during
    [computeIngresses]: Phase B adds and removes none, and it changes
    neither the name, nor the secret, nor the minimum TLS version of one;
    all it does to a secure virtual host is to append routes. *)
Theorem computeIngresses_keeps_tls_state (b : Builder) (h : string) :
  secure_entry (computeIngresses b) h = secure_entry b h
  /\ (is_Some (securevirtualhosts (computeIngresses b) !! h)
      <-> is_Some (securevirtualhosts b !! h))
  /\ exists added : list Route,
      secure_routes (computeIngresses b) h = (secure_routes b h ++ added)%list.
Proof.
  rewrite computeIngresses_attach. split; [apply entry_foldl_attach|].
  split; [apply secure_entry_foldl_attach|].
  rewrite secure_routes_foldl_attach. eauto.
Qed.

(** X16. Phase A attaches no route and renames nothing: the routes of
    every secure virtual host are the same before and after
    [computeSecureVirtualhosts], and a secure virtual host that was there
    before is still there. *)
Theorem computeSecureVirtualhosts_keeps_routes (b : Builder) (h : string) :
  secure_routes (computeSecureVirtualhosts b) h = secure_routes b h
  /\ (is_Some (securevirtualhosts b !! h) ->
      is_Some (securevirtualhosts (computeSecureVirtualhosts b) !! h)).
Proof.
  rewrite computeSecureVirtualhosts_blocks. split.
  - apply secure_routes_tls_steps.
  - intros Hsome. apply tls_steps_entry. now left.
Qed.

End ProcessorProperties.

(** * The further properties on the example snapshots *)
Section ProcessorPropertyExamples.
Import gostrings dag processor graph rules fixtures.
Existing Instance stock.

(** X8 on the ingress with two TLS blocks: the secure virtual host of the
    host of the passing block. *)
Lemma Run_secure_hosts_are_backed_witness :
  securevirtualhosts (run [two_blocks]) !! "b.example.com"
  = Some {| svhost_VirtualHost :=
              {| vhost_Name := "b.example.com"; routes := [route two_blocks "/" kuard] |};
            svhost_MinTLSVersion := 0;
            svhost_Secret := Some "certificate" |}
  /\ exists (blk : v1beta1.Ingress * v1beta1.IngressTLS) (sec : string),
      In blk (tls_blocks (snapshot [two_blocks]))
      /\ In "b.example.com" (v1beta1.Hosts blk.2)
      /\ LookupSecret (snapshot [two_blocks]) (secret_name blk.1 blk.2) validSecret = inl sec
      /\ DelegationPermitted (snapshot [two_blocks]) (secret_name blk.1 blk.2)
           (v1beta1.Namespace blk.1) = true
      /\ Some "certificate" = Some sec
      /\ 0 = min_tls blk.1.
Proof.
  assert (Hsvh : securevirtualhosts (run [two_blocks]) !! "b.example.com"
                 = Some {| svhost_VirtualHost :=
                             {| vhost_Name := "b.example.com";
                                routes := [route two_blocks "/" kuard] |};
                           svhost_MinTLSVersion := 0;
                           svhost_Secret := Some "certificate" |})
    by (vm_compute; reflexivity).
  split; [exact Hsvh|].
  exact (proj2 (Run_secure_hosts_are_backed (snapshot [two_blocks]) "b.example.com" _ Hsvh)).
Defined.

(** X10 on the ingress with a default backend. *)
Lemma Run_plaintext_hosts_have_routes_witness :
  virtualhosts (run [backend_only]) !! "*"
  = Some {| vhost_Name := "*"; routes := [route backend_only "/" kuard] |}
  /\ "*" = "*" /\ [route backend_only "/" kuard] <> [].
Proof.
  assert (Hv : virtualhosts (run [backend_only]) !! "*"
               = Some {| vhost_Name := "*"; routes := [route backend_only "/" kuard] |})
    by (vm_compute; reflexivity).
  split; [exact Hv|].
  exact (Run_plaintext_hosts_have_routes (snapshot [backend_only]) "*" _ Hv).
Defined.

(** X11 on the same ingress: the route of the default host. *)
Lemma Run_routes_come_from_route_witness :
  In (route backend_only "/" kuard) (plain_routes (run [backend_only]) "*")
  /\ exists (ing : v1beta1.Ingress) (httppath : v1beta1.HTTPIngressPath) (s : Service),
      In ing (ingresses (snapshot [backend_only]))
      /\ LookupService (snapshot [backend_only])
           {| types.Name := v1beta1.ServiceName (v1beta1.Backend httppath);
              types.Namespace := v1beta1.Namespace ing |}
           (v1beta1.ServicePort (v1beta1.Backend httppath)) = inl s
      /\ route backend_only "/" kuard
         = route ing (stringOrDefault (v1beta1.Path httppath) "/") s
      /\ stringOrDefault (v1beta1.Path httppath) "/" <> ""
      /\ Clusters (route backend_only "/" kuard)
         = [{| Upstream := s; cluster_Protocol := Protocol s |}]
      /\ ("*" = "*" \/ Contains "*" "*" = false).
Proof.
  assert (Hin : In (route backend_only "/" kuard) (plain_routes (run [backend_only]) "*"))
    by (vm_compute; now left).
  split; [exact Hin|].
  exact (Run_routes_come_from_route (snapshot [backend_only]) "*" _ (or_introl Hin)).
Defined.

(** X12 on the same ingress: it does not require TLS and allows HTTP, and
    the route of the default host is the one of its default backend. *)
Lemma Run_plaintext_upgrades_or_allowed_witness :
  In (route backend_only "/" kuard) (plain_routes (run [backend_only]) "*")
  /\ exists (ing : v1beta1.Ingress) (rule : v1beta1.IngressRule)
            (httppath : v1beta1.HTTPIngressPath) (s : Service),
      In ing (ingresses (snapshot [backend_only]))
      /\ rule_of ing rule
      /\ path_of rule httppath
      /\ resolves (snapshot [backend_only]) ing httppath s
      /\ route backend_only "/" kuard = route ing (path_string httppath) s
      /\ Contains (v1beta1.Host rule) "*" = false
      /\ "*" = host_of rule
      /\ (TLSRequired ing || HTTPAllowed ing) = true
      /\ HTTPSUpgrade (route backend_only "/" kuard) = TLSRequired ing
      /\ (HTTPSUpgrade (route backend_only "/" kuard) = true \/ HTTPAllowed ing = true).
Proof.
  assert (Hin : In (route backend_only "/" kuard) (plain_routes (run [backend_only]) "*"))
    by (vm_compute; now left).
  split; [exact Hin|].
  exact (Run_plaintext_upgrades_or_allowed (snapshot [backend_only]) "*" _ Hin).
Defined.

End ProcessorPropertyExamples.

(** * One TLS block overriding another *)
Section ProcessorOverrideExamples.
Import gostrings dag processor graph overrides.
Existing Instance versioned.

(** X9 on a snapshot where four TLS blocks are visited and three of them
    list shop.example.com: the block of the first ingress passes with the
    old certificate and TLS 1.2, the first block of the second ingress
    passes with the new certificate and TLS 1.3, the block after it fails
    the secret lookup, and the last block passes and lists another host.
    The secure virtual host of shop.example.com carries the new
    certificate and the version of the second ingress. *)
Lemma Run_last_block_wins_witness :
  (tls_ok (vault [older; newer]) (older, old_block) = true
   /\ In "shop.example.com" (v1beta1.Hosts old_block)
   /\ LookupSecret (vault [older; newer]) (secret_name older old_block) validSecret
      = inl "old certificate"
   /\ min_tls older = 3)
  /\ (tls_ok (vault [older; newer]) (newer, new_block) = true
      /\ In "shop.example.com" (v1beta1.Hosts new_block)
      /\ min_tls newer = 4)
  /\ exists svh : SecureVirtualHost,
      securevirtualhosts (Run (fresh (vault [older; newer]))) !! "shop.example.com"
      = Some svh
      /\ svhost_Secret svh = Some "new certificate"
      /\ svhost_MinTLSVersion svh = min_tls newer.
Proof.
  split; [|split].
  - repeat split; try reflexivity. now left.
  - repeat split; try reflexivity. right. now left.
  - apply (Run_last_block_wins (vault [older; newer])
             [(older, old_block)]
             [(newer, lost_block); (newer, other_block)]
             (newer, new_block)
             "new certificate" "shop.example.com" (fresh (vault [older; newer]))).
    + reflexivity.
    + reflexivity.
    + reflexivity.
    + reflexivity.
    + right. now left.
    + intros blk' [<-|[<-|[]]] Hok.
      * discriminate Hok.
      * intros [Heq|[]]. discriminate Heq.
Defined.

End ProcessorOverrideExamples.

